(** * Trading journal: CSV codec, id reconciliation and statistics

    A shallow embedding of the [TradingJournal] class.  The repository holds
    three revisions of the class:

    - [Rev1]: the first class of [script.js] (create, clear, export, import);
    - [Rev2]: the second class of [script.js] (adds the ticker field and the
      edit mode);
    - [Rev3]: [unnamed/part_000] (adds [deleteTrade], free-text
      [activeMgmt], and escapes [activeMgmt] on export).

    Functions that differ between revisions take the revision as an argument.

    Conventions of the model.
    - A JavaScript string is the list of its UTF-16 code units ([N]).
    - A JavaScript Number used as a PnL is [NaN], an infinity or an exact
      rational kept in lowest terms ([Qred]): arithmetic is exact, IEEE
      rounding and the negative zero are outside the model.
    - An identifier is only ever the result of [parseInt] or of the integer
      counter, so it is [NaN] or an integer.
    - DOM reads are function arguments (the raw form values, the answer of
      [confirm], today's date); DOM writes, [localStorage] writes and the
      download of the exported file are not modelled, except for the status
      message handed to [showStatus]. *)

From Stdlib Require Import List ZArith NArith Lia Bool.
From Stdlib Require Import Ascii.
From Stdlib Require String.
Import String.StringSyntax.
From Stdlib Require Import QArith Qround Qabs Lqa.
Import ListNotations.

Local Open Scope Z_scope.
Local Open Scope list_scope.

(** ** JavaScript strings *)

Definition char := N.
Definition str := list char.

(** The code units of a string literal. *)
Definition lit (s : String.string) : str :=
  map N_of_ascii (String.list_ascii_of_string s).

Delimit Scope string_scope with string.
Arguments lit s%_string.

Definition comma : char := 44%N.
Definition dquote : char := 34%N.
Definition newline : char := 10%N.

Definition ceq (a b : char) : bool := N.eqb a b.

Fixpoint str_eqb (a b : str) : bool :=
  match a, b with
  | [], [] => true
  | x :: a', y :: b' => ceq x y && str_eqb a' b'
  | _, _ => false
  end.

(** [s.includes(c)] for a one-character needle. *)
Definition includes (c : char) (s : str) : bool := existsb (ceq c) s.

(** [s.startsWith(p)]. *)
Fixpoint startsWith (p s : str) : bool :=
  match p, s with
  | [], _ => true
  | x :: p', y :: s' => ceq x y && startsWith p' s'
  | _ :: _, [] => false
  end.

(** ECMAScript WhiteSpace and LineTerminator code units: what [trim] and the
    numeric parsers strip. *)
Definition isWhiteSpace (c : char) : bool :=
  ((9 <=? c) && (c <=? 13) || (c =? 32) || (c =? 160) || (c =? 5760)
   || (8192 <=? c) && (c <=? 8202) || (c =? 8232) || (c =? 8233)
   || (c =? 8239) || (c =? 8287) || (c =? 12288) || (c =? 65279))%N.

Fixpoint trimStart (s : str) : str :=
  match s with
  | c :: tl => if isWhiteSpace c then trimStart tl else s
  | [] => []
  end.

Definition trimEnd (s : str) : str := rev (trimStart (rev s)).

(** [s.trim()]. *)
Definition trim (s : str) : str := trimEnd (trimStart s).

(** [s.split(sep)] for a one-character separator: never the empty array. *)
Fixpoint split (sep : char) (s : str) : list str :=
  match s with
  | [] => [[]]
  | c :: tl =>
      if ceq c sep then [] :: split sep tl
      else match split sep tl with
           | cur :: more => (c :: cur) :: more
           | [] => [[c]]
           end
  end.

(** [parts.join(sep)]. *)
Fixpoint join (sep : str) (parts : list str) : str :=
  match parts with
  | [] => []
  | [p] => p
  | p :: more => p ++ sep ++ join sep more
  end.

(** [s.replace] of every double quote by two double quotes (the global
    regular expression of [escapeCSVField]). *)
Fixpoint doubleQuotes (s : str) : str :=
  match s with
  | [] => []
  | c :: tl => if ceq c dquote then dquote :: dquote :: doubleQuotes tl
               else c :: doubleQuotes tl
  end.

(** [s.replace] of every pair of adjacent double quotes by one double quote
    (the global regular expression of [parseCSVLine]): matches are taken
    left to right and do not overlap. *)
Fixpoint collapseQuotes (s : str) : str :=
  match s with
  | [] => []
  | c :: tl =>
      match tl with
      | d :: tl' =>
          if ceq c dquote && ceq d dquote then dquote :: collapseQuotes tl'
          else c :: collapseQuotes tl
      | [] => [c]
      end
  end.

(** ** JavaScript numbers *)

(** An identifier: [NaN] or an integer. *)
Inductive ident : Type :=
| IdNaN
| Id (z : Z).

(** [a === b] on identifiers: [NaN] equals nothing. *)
Definition idEq (a b : ident) : bool :=
  match a, b with
  | Id x, Id y => Z.eqb x y
  | _, _ => false
  end.

(** [a >= n] where [n] is the (integer) counter. *)
Definition idGe (a : ident) (n : Z) : bool :=
  match a with
  | Id x => Z.leb n x
  | IdNaN => false
  end.

(** [n > a]. *)
Definition idLt (a : ident) (n : Z) : bool :=
  match a with
  | Id x => Z.ltb x n
  | IdNaN => false
  end.

(** A PnL value. *)
Inductive number : Type :=
| NaN
| PInf
| NInf
| Num (q : Q).

Definition nzero : number := Num 0%Q.

(** [a + b]. *)
Definition nadd (a b : number) : number :=
  match a, b with
  | NaN, _ | _, NaN => NaN
  | PInf, NInf | NInf, PInf => NaN
  | PInf, _ | _, PInf => PInf
  | NInf, _ | _, NInf => NInf
  | Num x, Num y => Num (Qred (x + y))
  end.

(** [a / n] for an array length [n > 0]. *)
Definition ndivLen (a : number) (n : nat) : number :=
  match a with
  | Num x => Num (Qred (x / inject_Z (Z.of_nat n)))
  | other => other
  end.

(** [Math.abs(a)]. *)
Definition nabs (a : number) : number :=
  match a with
  | NaN => NaN
  | PInf | NInf => PInf
  | Num x => Num (Qred (Qabs x))
  end.

(** [a > 0]. *)
Definition ngt0 (a : number) : bool :=
  match a with
  | NaN | NInf => false
  | PInf => true
  | Num x => if Qlt_le_dec 0 x then true else false
  end.

(** [a < 0]. *)
Definition nlt0 (a : number) : bool :=
  match a with
  | NaN | PInf => false
  | NInf => true
  | Num x => if Qlt_le_dec x 0 then true else false
  end.

(** [isNaN(a)]. *)
Definition isNaN (a : number) : bool :=
  match a with NaN => true | _ => false end.

(** [Math.round(x)] for an exact rational: the floor of [x + 1/2]. *)
Definition mathRound (x : Q) : Z := Qfloor (x + (1 # 2))%Q.

(** *** Decimal digits *)

Definition digitValue (c : char) : option Z :=
  if ((48 <=? c) && (c <=? 57))%N then Some (Z.of_N (c - 48)) else None.

Definition hexValue (c : char) : option Z :=
  if ((48 <=? c) && (c <=? 57))%N then Some (Z.of_N (c - 48))
  else if ((97 <=? c) && (c <=? 102))%N then Some (Z.of_N (c - 87))
  else if ((65 <=? c) && (c <=? 70))%N then Some (Z.of_N (c - 55))
  else None.

(** The longest prefix of digits in the given radix: its value (added to
    [acc]), the number of digits read, and the rest of the text. *)
Fixpoint takeDigits (val : char -> option Z) (radix : Z) (s : str)
    (acc : Z) (n : nat) : Z * nat * str :=
  match s with
  | c :: tl =>
      match val c with
      | Some d => takeDigits val radix tl (acc * radix + d) (S n)
      | None => (acc, n, s)
      end
  | [] => (acc, n, [])
  end.

(** An optional sign: [true] for a minus. *)
Definition takeSign (s : str) : bool * str :=
  match s with
  | c :: tl =>
      if ceq c 45%N then (true, tl)
      else if ceq c 43%N then (false, tl)
      else (false, s)
  | [] => (false, [])
  end.

(** [parseInt(s)] with no radix argument: leading white space is skipped,
    a [0x] prefix selects radix 16, and the longest prefix of digits is
    read; [NaN] when there is none. *)
Definition readInteger (s1 : str) : Z * nat * str :=
  match s1 with
  | z :: x :: tl =>
      if ceq z 48%N && (ceq x 120%N || ceq x 88%N)
      then takeDigits hexValue 16 tl 0 0
      else takeDigits digitValue 10 s1 0 0
  | _ => takeDigits digitValue 10 s1 0 0
  end.

Definition parseInt (s : str) : ident :=
  let (neg, s1) := takeSign (trimStart s) in
  match readInteger s1 with
  | (_, O, _) => IdNaN
  | (v, S _, _) => Id (if neg then - v else v)
  end.

(** The decimal literal at the head of [s1], with the sign already read:
    [Infinity], or digits with an optional fraction and exponent; [NaN]
    when there is none. *)
Definition readDecimal (neg : bool) (s1 : str) : number :=
  if startsWith (lit "Infinity") s1 then (if neg then NInf else PInf)
  else
    let '(ip, ni, s2) := takeDigits digitValue 10 s1 0 0 in
    let '(fp, nf, s3) :=
      match s2 with
      | c :: tl => if ceq c 46%N then takeDigits digitValue 10 tl 0 0
                   else (0%Z, O, s2)
      | [] => (0%Z, O, [])
      end in
    match (ni + nf)%nat with
    | O => NaN
    | S _ =>
        let ex :=
          match s3 with
          | c :: tl =>
              if ceq c 101%N || ceq c 69%N then
                let (eneg, s4) := takeSign tl in
                let '(ev, ne, _) := takeDigits digitValue 10 s4 0 0 in
                match ne with
                | O => 0%Z
                | S _ => if eneg then (- ev)%Z else ev
                end
              else 0%Z
          | [] => 0%Z
          end in
        let mag :=
          ((inject_Z ip + inject_Z fp / inject_Z (10 ^ Z.of_nat nf))
           * Qpower (inject_Z 10) ex)%Q in
        Num (Qred (if neg then - mag else mag))
    end.

(** [parseFloat(s)]: leading white space is skipped and the longest prefix
    that is a decimal literal is read. *)
Definition parseFloat (s : str) : number :=
  let (neg, s1) := takeSign (trimStart s) in
  readDecimal neg s1.

(** The decimal digits of a non-negative integer, most significant first.
    [fuel] bounds the number of digits. *)
Fixpoint digitsFuel (fuel : nat) (n : Z) : str :=
  match fuel with
  | O => []
  | S f =>
      if (n <? 10)%Z then [Z.to_N (48 + n)]
      else digitsFuel f (n / 10) ++ [Z.to_N (48 + n mod 10)]
  end.

Definition natToString (n : Z) : str :=
  digitsFuel (S (Z.to_nat (Z.log2 n))) n.

Definition intToString (z : Z) : str :=
  if (z <? 0)%Z then 45%N :: natToString (- z) else natToString z.

(** [String(id)]: the decimal text of an integer (the exponent notation of
    integers from 10^21 on is not modelled). *)
Definition idToString (i : ident) : str :=
  match i with
  | IdNaN => lit "NaN"
  | Id z => intToString z
  end.

(** The digits after the decimal point of [r / d] by long division, where
    [0 <= r < d]; it stops when the remainder vanishes. *)
Fixpoint fractionDigits (fuel : nat) (r d : Z) : str :=
  match fuel with
  | O => []
  | S f =>
      if (r =? 0)%Z then []
      else Z.to_N (48 + (r * 10) / d) :: fractionDigits f ((r * 10) mod d) d
  end.

(** [String(x)] for a PnL: plain positional decimal text, with at most 20
    digits after the point (the exponent notation of very large and very
    small values is not modelled). *)
Definition numberToString (x : number) : str :=
  match x with
  | NaN => lit "NaN"
  | PInf => lit "Infinity"
  | NInf => lit "-Infinity"
  | Num q =>
      let n := Qnum q in
      let d := Z.pos (Qden q) in
      let a := Z.abs n in
      let frac := fractionDigits 20 (a mod d) d in
      (if (n <? 0)%Z then [45%N] else [])
      ++ natToString (a / d)
      ++ match frac with [] => [] | _ => 46%N :: frac end
  end.

(** ** The record model *)

Inductive revision : Type := Rev1 | Rev2 | Rev3.

Definition hasTicker (rev : revision) : bool :=
  match rev with Rev1 => false | _ => true end.

(** A trade object.  [ticker] is [None] when the object has no such
    property (objects built by [Rev1] and by [parseCSVLine]). *)
Record trade : Type := mkTrade {
  id : ident;
  date : str;
  tradeSetup : str;
  ticker : option str;
  rr : str;
  pnl : number;
  activeMgmt : str;
  execution : str;
  note : str
}.

(** The instance state: [this.trades], [this.nextId] and [this.editId]
    ([None] for [null]; [Rev1] has no edit mode and never sets it). *)
Record journal : Type := mkJournal {
  trades : list trade;
  nextId : Z;
  editId : option ident
}.

Definition initial : journal :=
  {| trades := []; nextId := 1; editId := None |}.

Definition CSV_HEADER : str :=
  lit "ID,Date,TradeSetup,RR,PnL,ActiveMgmt,Execution,Note".

Inductive field : Type :=
| FTradeSetup | FTicker | FRr | FPnl | FActiveMgmt | FExecution.

(** The messages handed to [showStatus]. *)
Inductive status : Type :=
| RRFormatError
| MissingField (f : field)
| PnlNotNumber
| UpdateNotFound
| TradeUpdated (i : ident)
| TradeAdded (i : Z)
| EditNotFound
| EditCancelled
| TradeDeleted (i : ident)
| DeleteNotFound
| NoTradesToExport
| CsvEmpty
| InvalidHeader
| Imported (imported skipped : nat)
| AllCleared.

(** ** The form *)

(** The values of the form inputs, as the DOM holds them. *)
Record form : Type := mkForm {
  f_tradeSetup : str;
  f_ticker : str;
  f_rr : str;
  f_pnl : str;
  f_activeMgmt : str;
  f_execution : str;
  f_note : str
}.

Definition isDigit (c : char) : bool := ((48 <=? c) && (c <=? 57))%N.

Fixpoint dropDigits (s : str) : str :=
  match s with
  | c :: tl => if isDigit c then dropDigits tl else s
  | [] => []
  end.

(** The regular expression of [validateRRInput]: digits, an optional point
    followed by digits, then a colon and the digit one, anchored at both
    ends. *)
Definition rrPattern (s : str) : bool :=
  match s with
  | c :: _ =>
      isDigit c &&
      (let r := dropDigits s in
       str_eqb r (lit ":1")
       || match r with
          | p :: ((d :: _) as r') =>
              ceq p 46%N && isDigit d && str_eqb (dropDigits r') (lit ":1")
          | _ => false
          end)
  | [] => false
  end.

Definition validateRRInput (rawRr : str) : bool :=
  match trim rawRr with
  | [] => true
  | value => rrPattern value
  end.

Definition getFormData (rev : revision) (raw : form) : form :=
  {| f_tradeSetup := f_tradeSetup raw;
     f_ticker := if hasTicker rev then trim (f_ticker raw) else [];
     f_rr := trim (f_rr raw);
     f_pnl := f_pnl raw;
     f_activeMgmt := match rev with
                     | Rev3 => trim (f_activeMgmt raw)
                     | _ => f_activeMgmt raw
                     end;
     f_execution := f_execution raw;
     f_note := trim (f_note raw) |}.

Definition isEmpty (s : str) : bool :=
  match s with [] => true | _ => false end.

Definition requiredFields (rev : revision) : list field :=
  if hasTicker rev
  then [FTradeSetup; FTicker; FRr; FPnl; FActiveMgmt; FExecution]
  else [FTradeSetup; FRr; FPnl; FActiveMgmt; FExecution].

Definition formField (fd : form) (f : field) : str :=
  match f with
  | FTradeSetup => f_tradeSetup fd
  | FTicker => f_ticker fd
  | FRr => f_rr fd
  | FPnl => f_pnl fd
  | FActiveMgmt => f_activeMgmt fd
  | FExecution => f_execution fd
  end.

(** [validateFormData]: [None] when the data is accepted, otherwise the
    error shown. *)
Definition validateFormData (rev : revision) (fd : form) : option status :=
  match find (fun f => isEmpty (formField fd f)) (requiredFields rev) with
  | Some f => Some (MissingField f)
  | None => if isNaN (parseFloat (f_pnl fd)) then Some PnlNotNumber else None
  end.

(** ** Trade management *)

(** [trades.findIndex(t => t.id === i)]: [None] for -1. *)
Fixpoint findIndex (i : ident) (ts : list trade) : option nat :=
  match ts with
  | [] => None
  | t :: tl => if idEq (id t) i then Some O
               else option_map S (findIndex i tl)
  end.

(** [ts[k] = t] for an index [k] inside the array. *)
Fixpoint setAt (k : nat) (t : trade) (ts : list trade) : list trade :=
  match ts, k with
  | [], _ => []
  | _ :: tl, O => t :: tl
  | x :: tl, S k' => x :: setAt k' t tl
  end.

(** [ts.splice(k, 1)]. *)
Fixpoint removeAt (k : nat) (ts : list trade) : list trade :=
  match ts, k with
  | [], _ => []
  | _ :: tl, O => tl
  | x :: tl, S k' => x :: removeAt k' tl
  end.

(** [addTrade]: the create path and, from [Rev2] on, the update path. *)
Definition addTrade (rev : revision) (st : journal) (raw : form)
    (today : str) : journal * option status :=
  if negb (validateRRInput (f_rr raw)) then (st, Some RRFormatError)
  else
    let formData := getFormData rev raw in
    match validateFormData rev formData with
    | Some err => (st, Some err)
    | None =>
        let tk := if hasTicker rev then Some (f_ticker formData) else None in
        match (if hasTicker rev then editId st else None) with
        | Some eid =>
            match findIndex eid (trades st) with
            | None => (st, Some UpdateNotFound)
            | Some tradeIndex =>
                let updated :=
                  {| id := eid;
                     date := match nth_error (trades st) tradeIndex with
                             | Some old => date old
                             | None => []
                             end;
                     tradeSetup := f_tradeSetup formData;
                     ticker := tk;
                     rr := f_rr formData;
                     pnl := parseFloat (f_pnl formData);
                     activeMgmt := f_activeMgmt formData;
                     execution := f_execution formData;
                     note := f_note formData |} in
                ({| trades := setAt tradeIndex updated (trades st);
                    nextId := nextId st;
                    editId := None |}, Some (TradeUpdated eid))
            end
        | None =>
            let newTrade :=
              {| id := Id (nextId st);
                 date := today;
                 tradeSetup := f_tradeSetup formData;
                 ticker := tk;
                 rr := f_rr formData;
                 pnl := parseFloat (f_pnl formData);
                 activeMgmt := f_activeMgmt formData;
                 execution := f_execution formData;
                 note := f_note formData |} in
            ({| trades := trades st ++ [newTrade];
                nextId := nextId st + 1;
                editId := editId st |}, Some (TradeAdded (nextId st)))
        end
    end.

(** [loadTradeForEdit] ([Rev2], [Rev3]). *)
Definition loadTradeForEdit (st : journal) (i : ident)
    : journal * option status :=
  if existsb (fun t => idEq (id t) i) (trades st)
  then ({| trades := trades st; nextId := nextId st; editId := Some i |}, None)
  else (st, Some EditNotFound).

(** [cancelEdit] ([Rev2], [Rev3]). *)
Definition cancelEdit (st : journal) : journal * option status :=
  ({| trades := trades st; nextId := nextId st; editId := None |},
   Some EditCancelled).

(** [deleteTrade] ([Rev3]); [confirmed] is the answer of [confirm]. *)
Definition deleteTrade (st : journal) (i : ident) (confirmed : bool)
    : journal * option status :=
  match findIndex i (trades st) with
  | Some index =>
      if confirmed
      then ({| trades := removeAt index (trades st);
               nextId := nextId st;
               editId := editId st |}, Some (TradeDeleted i))
      else (st, None)
  | None => (st, Some DeleteNotFound)
  end.

(** [clearAllData]; [confirmed] is the answer of [confirm]. *)
Definition clearAllData (st : journal) (confirmed : bool)
    : journal * option status :=
  if confirmed
  then ({| trades := []; nextId := 1; editId := editId st |}, Some AllCleared)
  else (st, None).

(** ** Statistics *)

Record stats : Type := mkStats {
  totalPnl : number;
  totalTrades : nat;
  winRate : Z;
  avgWin : number;
  avgLoss : number
}.

(** [ts.reduce((sum, t) => sum + t.pnl, 0)]. *)
Definition sumPnl (ts : list trade) : number :=
  fold_left (fun sum t => nadd sum (pnl t)) ts nzero.

Definition calculateStatsForTrades (ts : list trade) : stats :=
  match ts with
  | [] => {| totalPnl := nzero; totalTrades := 0; winRate := 0;
             avgWin := nzero; avgLoss := nzero |}
  | _ =>
      let winningTrades := filter (fun t => ngt0 (pnl t)) ts in
      let losingTrades := filter (fun t => nlt0 (pnl t)) ts in
      {| totalPnl := sumPnl ts;
         totalTrades := length ts;
         winRate :=
           mathRound (inject_Z (Z.of_nat (length winningTrades))
                      / inject_Z (Z.of_nat (length ts)) * 100)%Q;
         avgWin :=
           if (0 <? length winningTrades)%nat
           then ndivLen (sumPnl winningTrades) (length winningTrades)
           else nzero;
         avgLoss :=
           if (0 <? length losingTrades)%nat
           then nabs (ndivLen (sumPnl losingTrades) (length losingTrades))
           else nzero |}
  end.

Record allStats : Type := mkAllStats {
  overall : stats;
  scalp : stats;
  swing : stats
}.

Definition calculateStats (st : journal) : allStats :=
  let allTrades := trades st in
  let scalpTrades :=
    filter (fun t => startsWith (lit "Scalp:") (tradeSetup t)) allTrades in
  let swingTrades :=
    filter (fun t => startsWith (lit "Swing:") (tradeSetup t)) allTrades in
  {| overall := calculateStatsForTrades allTrades;
     scalp := calculateStatsForTrades scalpTrades;
     swing := calculateStatsForTrades swingTrades |}.

(** ** CSV export *)

Definition escapeCSVField (stringField : str) : str :=
  if includes comma stringField || includes newline stringField
     || includes dquote stringField
  then [dquote] ++ doubleQuotes stringField ++ [dquote]
  else stringField.

(** The array joined into one row.  Only [Rev3] escapes [activeMgmt]. *)
Definition rowFields (rev : revision) (t : trade) : list str :=
  let escapedNote := escapeCSVField (note t) in
  [ idToString (id t);
    date t;
    tradeSetup t;
    rr t;
    numberToString (pnl t);
    match rev with
    | Rev3 => escapeCSVField (activeMgmt t)
    | _ => activeMgmt t
    end;
    execution t;
    escapedNote ].

Definition csvRow (rev : revision) (t : trade) : str :=
  join [comma] (rowFields rev t).

(** The text built by [exportToCSV]; [None] when there is nothing to
    export. *)
Definition exportToCSV (rev : revision) (st : journal) : option str :=
  match trades st with
  | [] => None
  | ts =>
      Some (fold_left (fun csvContent t => csvContent ++ csvRow rev t ++ [newline])
                      ts (CSV_HEADER ++ [newline]))
  end.

(** ** CSV import *)

Definition nextIs (x : char) (tl : str) : bool :=
  match tl with
  | d :: _ => ceq d x
  | [] => false
  end.

(** The scanning loop of [parseCSVLine].  [prev] is [line[i-1]] ([None] at
    [i = 0]), [rest] starts at [line[i]]. *)
Fixpoint scanLine (prev : option char) (rest : str) (fields : list str)
    (current : str) (inQuotes : bool) : list str :=
  match rest with
  | [] => fields ++ [collapseQuotes current]
  | c :: tl =>
      let afterComma :=
        match prev with None => true | Some p => ceq p comma end in
      if ceq c dquote && afterComma then
        scanLine (Some c) tl fields current true
      else if ceq c dquote && inQuotes && (isEmpty tl || nextIs comma tl) then
        scanLine (Some c) tl fields current false
      else if ceq c comma && negb inQuotes then
        scanLine (Some c) tl (fields ++ [collapseQuotes current]) [] inQuotes
      else if negb (ceq c dquote && inQuotes && nextIs dquote tl) then
        scanLine (Some c) tl fields (current ++ [c]) inQuotes
      else
        match tl with
        | d :: tl' => scanLine (Some d) tl' fields (current ++ [c]) inQuotes
        | [] => fields ++ [collapseQuotes (current ++ [c])]
        end
  end.

(** [parseCSVLine]: [None] for [null]. *)
Definition parseCSVLine (line : str) : option trade :=
  match scanLine None line [] [] false with
  | [fid; fdate; ftradeSetup; frr; fpnl; factiveMgmt; fexecution; fnote] =>
      if isEmpty fid || isEmpty fdate || isEmpty ftradeSetup || isEmpty frr
         || isEmpty fpnl || isEmpty factiveMgmt || isEmpty fexecution
      then None
      else Some {| id := parseInt fid;
                   date := trim fdate;
                   tradeSetup := trim ftradeSetup;
                   ticker := None;
                   rr := trim frr;
                   pnl := parseFloat fpnl;
                   activeMgmt := trim factiveMgmt;
                   execution := trim fexecution;
                   note := trim fnote |}
  | _ => None
  end.

Definition withId (t : trade) (i : ident) : trade :=
  {| id := i; date := date t; tradeSetup := tradeSetup t; ticker := ticker t;
     rr := rr t; pnl := pnl t; activeMgmt := activeMgmt t;
     execution := execution t; note := note t |}.

(** The reconciliation of one decoded trade with the live collection. *)
Definition mergeTrade (st : journal) (t : trade) : journal :=
  let conflict := existsb (fun x => idEq (id x) (id t)) (trades st) in
  let t1 := if conflict then withId t (Id (nextId st)) else t in
  let next1 := if conflict then nextId st + 1 else nextId st in
  {| trades := trades st ++ [t1];
     nextId := match id t1 with
               | Id z => if (next1 <=? z) then z + 1 else next1
               | IdNaN => next1
               end;
     editId := editId st |}.

(** The running state of the import loop. *)
Record importRun : Type := mkRun {
  runJournal : journal;
  importedCount : nat;
  skippedCount : nat
}.

(** The body of [dataLines.forEach]. *)
Definition importLine (r : importRun) (line : str) : importRun :=
  if isEmpty (trim line) then r
  else
    match parseCSVLine line with
    | Some t => {| runJournal := mergeTrade (runJournal r) t;
                   importedCount := S (importedCount r);
                   skippedCount := skippedCount r |}
    | None => {| runJournal := runJournal r;
                 importedCount := importedCount r;
                 skippedCount := S (skippedCount r) |}
    end.

Definition startRun (st : journal) : importRun :=
  {| runJournal := st; importedCount := 0; skippedCount := 0 |}.

Definition processCSVData (st : journal) (csvText : str) : journal * status :=
  let lines := split newline (trim csvText) in
  if (length lines <? 2)%nat then (st, CsvEmpty)
  else
    let header := trim (hd [] lines) in
    if negb (str_eqb header CSV_HEADER) then (st, InvalidHeader)
    else
      let dataLines := tl lines in
      let r := fold_left importLine dataLines (startRun st) in
      (runJournal r, Imported (importedCount r) (skippedCount r)).

(** ** Sample data *)

Definition sampleTrade : trade :=
  {| id := Id 1; date := lit "2024-01-01"; tradeSetup := lit "Scalp: W";
     ticker := None; rr := lit "1.5:1"; pnl := Num 100;
     activeMgmt := lit "+EV"; execution := lit "A";
     note := lit "clean, fast" |}.

(** ** Vocabulary of the properties *)

(** A string that neither starts nor ends with white space. *)
Definition trimmed (s : str) : Prop :=
  (forall c tl, s = c :: tl -> isWhiteSpace c = false)
  /\ (forall c front, s = front ++ [c] -> isWhiteSpace c = false).

(** The text before the first line break. *)
Fixpoint firstLine (s : str) : str :=
  match s with
  | [] => []
  | c :: tl => if ceq c newline then [] else c :: firstLine tl
  end.

(** A document whose header line carries a trailing blank. *)
Definition paddedHeaderDoc : str :=
  CSV_HEADER ++ lit " " ++ [newline]
  ++ lit "1,2024-01-01,Scalp: W,1.5:1,100,+EV,A,ok".

(** A document with a wrong first line and one data line. *)
Definition wrongHeaderDoc : str :=
  lit "Id;Date" ++ [newline] ++ lit "1,2024-01-01,Scalp: W,1.5:1,100,+EV,A,ok".

(** A line whose date and quoted note are padded with blanks. *)
Definition spacedLine : str :=
  lit "7, 2024-01-01 ,Scalp: W,1:1,5,+EV,A," ++ [dquote]
  ++ lit "  wide, note  " ++ [dquote].

Definition spacedTrade : trade :=
  {| id := Id 7; date := lit "2024-01-01"; tradeSetup := lit "Scalp: W";
     ticker := None; rr := lit "1:1"; pnl := Num 5;
     activeMgmt := lit "+EV"; execution := lit "A";
     note := lit "wide, note" |}.

(** Lines whose identifier, respectively PnL, is not a number. *)
Definition nanIdLine : str := lit "abc,2024-01-01,Scalp: W,1:1,100,+EV,A,ok".
Definition nanPnlLine : str := lit "7,2024-01-01,Scalp: W,1:1,n/a,+EV,A,ok".

(** A line with an empty date. *)
Definition noDateLine : str := lit "1,,Scalp: W,1:1,100,+EV,A,ok".

(** The run after a line was counted as skipped. *)
Definition skipOne (r : importRun) : importRun :=
  {| runJournal := runJournal r;
     importedCount := importedCount r;
     skippedCount := S (skippedCount r) |}.

(** The quoting law of the specification. *)
Definition needsQuoting (s : str) : Prop :=
  In comma s \/ In dquote s \/ In newline s.

Definition quoteWrapped (s : str) : str :=
  [dquote]
  ++ flat_map (fun c => if ceq c dquote then [dquote; dquote] else [c]) s
  ++ [dquote].

(** [e] is the encoding of the field text [s] under the quoting law. *)
Definition encodesField (s e : str) : Prop :=
  (needsQuoting s /\ e = quoteWrapped s) \/ (~ needsQuoting s /\ e = s).

(** The texts of the eight exported fields, in row order. *)
Definition fieldTexts (t : trade) : list str :=
  [ idToString (id t); date t; tradeSetup t; rr t; numberToString (pnl t);
    activeMgmt t; execution t; note t ].

(** A trade whose date, as imported from a quoted field, holds a comma. *)
Definition commaTrade : trade :=
  {| id := Id 3; date := lit "Jan 5, 2024"; tradeSetup := lit "Swing: PB";
     ticker := None; rr := lit "2:1"; pnl := Num 40;
     activeMgmt := lit "N/A"; execution := lit "B"; note := lit "" |}.

(** The record the update path writes: the identifier and date of [old],
    every other field from the validated form data. *)
Definition updatedFrom (old : trade) (fd : form) : trade :=
  {| id := id old;
     date := date old;
     tradeSetup := f_tradeSetup fd;
     ticker := Some (f_ticker fd);
     rr := f_rr fd;
     pnl := parseFloat (f_pnl fd);
     activeMgmt := f_activeMgmt fd;
     execution := f_execution fd;
     note := f_note fd |}.

(** A journal of two trades, the first one open in the edit form. *)
Definition editingJournal : journal :=
  {| trades := [ sampleTrade; spacedTrade ]; nextId := 8; editId := Some (Id 1) |}.

Definition editForm : form :=
  {| f_tradeSetup := lit "Swing: N"; f_ticker := lit " BTC ";
     f_rr := lit "2:1"; f_pnl := lit "-12.5"; f_activeMgmt := lit "N/A";
     f_execution := lit "C"; f_note := lit " late exit " |}.

(** ** Reachable states *)

(** One user command.  The edit mode exists from [Rev2] on, the deletion of
    a single trade in [Rev3] only. *)
Inductive step (rev : revision) : journal -> journal -> Prop :=
| step_addTrade st raw today :
    step rev st (fst (addTrade rev st raw today))
| step_loadTradeForEdit st i :
    hasTicker rev = true -> step rev st (fst (loadTradeForEdit st i))
| step_cancelEdit st :
    hasTicker rev = true -> step rev st (fst (cancelEdit st))
| step_deleteTrade st i confirmed :
    rev = Rev3 -> step rev st (fst (deleteTrade st i confirmed))
| step_clearAllData st confirmed :
    step rev st (fst (clearAllData st confirmed))
| step_import st csvText :
    step rev st (fst (processCSVData st csvText)).

(** The states the commands lead to from the empty journal. *)
Inductive reachable (rev : revision) : journal -> Prop :=
| reach_initial : reachable rev initial
| reach_step st st' : reachable rev st -> step rev st st' -> reachable rev st'.

(** The counter is strictly greater than every identifier
    ([nextId > t.id] for every trade). *)
Definition counterAbove (st : journal) : Prop :=
  forall t, In t (trades st) -> idLt (id t) (nextId st) = true.

(** No identifier reaches the counter ([t.id >= nextId] for no trade): what
    the comparisons of the code maintain. *)
Definition idsBelowCounter (st : journal) : Prop :=
  forall t, In t (trades st) -> idGe (id t) (nextId st) = false.

(** Every identifier is an integer. *)
Definition numericIds (st : journal) : Prop :=
  forall t, In t (trades st) -> id t <> IdNaN.


(** A document whose only data line has a non-numeric identifier. *)
Definition nanIdDoc : str := CSV_HEADER ++ [newline] ++ nanIdLine.




(** ** The aggregates of the specification *)

(** The sum of a list of numbers. *)
Definition total (xs : list number) : number := fold_right nadd nzero xs.



(** [r] is the integer nearest to [100 * w / n], a half being rounded up. *)
Definition nearestPercent (w n : nat) (r : Z) : Prop :=
  (2 * r - 1) * Z.of_nat n <= 200 * Z.of_nat w < (2 * r + 1) * Z.of_nat n.




(** The example collection of the specification. *)
Definition specExample : journal :=
  {| trades :=
       [ {| id := Id 1; date := lit "2024-01-01"; tradeSetup := lit "Scalp: W";
            ticker := None; rr := lit "1:1"; pnl := Num 100;
            activeMgmt := lit "+EV"; execution := lit "A"; note := [] |};
         {| id := Id 2; date := lit "2024-01-02"; tradeSetup := lit "Scalp: T";
            ticker := None; rr := lit "1:1"; pnl := Num (-50);
            activeMgmt := lit "-EV"; execution := lit "B"; note := [] |};
         {| id := Id 3; date := lit "2024-01-03"; tradeSetup := lit "Swing: PB";
            ticker := None; rr := lit "2:1"; pnl := Num 200;
            activeMgmt := lit "N/A"; execution := lit "A"; note := [] |} ];
     nextId := 4; editId := None |}.

(** ** Vocabulary of the round trip *)

(** The value of a string of decimal digits read from the left. *)
Definition digitsValue (ds : str) (acc : Z) : Z :=
  fold_left (fun a c => a * 10 + (Z.of_N c - 48)) ds acc.












(** A trade whose note holds a comma and quoted words. *)
Definition quotedNoteTrade : trade :=
  {| id := Id 2; date := lit "2024-01-02"; tradeSetup := lit "Swing: PB";
     ticker := Some (lit "ETH"); rr := lit "2:1"; pnl := Num (-101 # 2);
     activeMgmt := lit "-EV"; execution := lit "B";
     note := lit "said " ++ [dquote] ++ lit "go" ++ [dquote] ++ lit ", then left" |}.

Definition emptyNoteTrade : trade :=
  {| id := Id 3; date := lit "2024-01-03"; tradeSetup := lit "Scalp: T";
     ticker := None; rr := lit "1:1"; pnl := Num 0;
     activeMgmt := lit "N/A"; execution := lit "C"; note := [] |}.

Definition exportedJournal : journal :=
  {| trades := [sampleTrade; quotedNoteTrade; emptyNoteTrade];
     nextId := 4; editId := None |}.



(** A journal whose only trade has a two-line note. *)
Definition twoLineNoteJournal : journal :=
  {| trades := [ {| id := Id 1; date := lit "2024-01-01";
                    tradeSetup := lit "Scalp: W"; ticker := None;
                    rr := lit "1:1"; pnl := Num 100;
                    activeMgmt := lit "+EV"; execution := lit "A";
                    note := lit "first" ++ [newline] ++ lit "second" |} ];
     nextId := 2; editId := None |}.

(** ** Further vocabulary: the form, deletion and the stored counter *)

(** A non-empty run of decimal digits. *)
Definition digitRun (ds : str) : Prop :=
  ds <> [] /\ Forall (fun c => isDigit c = true) ds.

(** The texts the R:R pattern accepts: digits, optionally a point and
    digits, then a colon and the digit one. *)
Definition rrText (s : str) : Prop :=
  exists a, digitRun a
    /\ (s = a ++ lit ":1"
        \/ exists b, digitRun b /\ s = a ++ [46%N] ++ b ++ lit ":1").

(** What the form validation guarantees of a trade it lets through. *)
Definition formValid (rev : revision) (t : trade) : Prop :=
  tradeSetup t <> [] /\ rrText (rr t) /\ isNaN (pnl t) = false
  /\ activeMgmt t <> [] /\ execution t <> []
  /\ trimmed (rr t) /\ trimmed (note t)
  /\ (hasTicker rev = true ->
      exists tk, ticker t = Some tk /\ tk <> [] /\ trimmed tk).

(** The number of commas of a line. *)
Definition commas (line : str) : nat := length (filter (ceq comma) line).

(** The data lines of a document that are not blank. *)
Definition nonBlankDataLines (csvText : str) : list str :=
  filter (fun l => negb (isEmpty (trim l))) (tl (split newline (trim csvText))).






(** A journal of two trades, none of them open in the edit form. *)
Definition twoTradeJournal : journal :=
  {| trades := [sampleTrade; spacedTrade]; nextId := 8; editId := None |}.

Definition validForm : form :=
  {| f_tradeSetup := lit "Scalp: V"; f_ticker := lit "SOL";
     f_rr := lit " 1.5:1 "; f_pnl := lit "42"; f_activeMgmt := lit "7";
     f_execution := lit "A"; f_note := lit "  ok  " |}.

(** The statuses with which [addTrade] reports a stored trade. *)
Definition isStored (s : option status) : bool :=
  match s with
  | Some (TradeAdded _) | Some (TradeUpdated _) => true
  | _ => false
  end.

(** A form with a malformed R:R text. *)
Definition badRrForm : form :=
  {| f_tradeSetup := lit "Scalp: V"; f_ticker := lit "SOL";
     f_rr := lit "1.5:2"; f_pnl := lit "42"; f_activeMgmt := lit "7";
     f_execution := lit "A"; f_note := lit "" |}.



(** A document with a good row, a blank line and a short row. *)
Definition mixedDoc : str :=
  CSV_HEADER ++ [newline]
  ++ lit "5,2024-01-01,Scalp: W,1:1,100,+EV,A,ok" ++ [newline]
  ++ lit "   " ++ [newline]
  ++ lit "6,2024-01-02,Scalp: W".


(** * Properties *)

#[local] Arguments Qred : simpl never.
#[local] Arguments Qabs : simpl never.
#[local] Arguments Qplus : simpl never.
#[local] Arguments Qdiv : simpl never.
#[local] Arguments inject_Z : simpl never.

(** ** The primitives on sample inputs *)

Example parseInt_examples :
  parseInt (lit " 42abc") = Id 42 /\ parseInt (lit "-7") = Id (-7)
  /\ parseInt (lit "abc") = IdNaN /\ parseInt (lit "0x1F") = Id 31
  /\ parseInt (lit "") = IdNaN /\ parseInt (lit "1.9") = Id 1.
Proof. vm_compute. repeat split. Qed.

Example parseFloat_examples :
  parseFloat (lit "-50.5") = Num ((-101 # 2))
  /\ parseFloat (lit "1e2x") = Num (100)
  /\ parseFloat (lit ".") = NaN /\ parseFloat (lit "abc") = NaN
  /\ parseFloat (lit "5.") = Num (5)
  /\ parseFloat (lit "-Infinity") = NInf.
Proof. vm_compute. repeat split. Qed.

Example numberToString_examples :
  numberToString (Num ((-101 # 2))) = lit "-50.5"
  /\ numberToString (Num (100)) = lit "100"
  /\ numberToString (Num ((1 # 8))) = lit "0.125"
  /\ idToString (Id (-120)) = lit "-120" /\ idToString (Id 0) = lit "0".
Proof. vm_compute. repeat split. Qed.

Example export_sample :
  exportToCSV Rev1 {| trades := [sampleTrade]; nextId := 2; editId := None |}
  = Some (CSV_HEADER ++ [newline]
          ++ lit "1,2024-01-01,Scalp: W,1.5:1,100,+EV,A," ++ [dquote]
          ++ lit "clean, fast" ++ [dquote] ++ [newline]).
Proof. vm_compute. reflexivity. Qed.

Example import_sample :
  processCSVData initial
    (CSV_HEADER ++ [newline]
     ++ lit "1,2024-01-01,Scalp: W,1.5:1,100,+EV,A," ++ [dquote]
     ++ lit "clean, fast" ++ [dquote] ++ [newline])
  = ({| trades := [sampleTrade]; nextId := 2; editId := None |}, Imported 1 0).
Proof. vm_compute. reflexivity. Qed.

(** ** Facts about the string primitives *)

Lemma ceq_eq (a b : char) : ceq a b = true <-> a = b.
Proof. apply N.eqb_eq. Qed.

Lemma ceq_neq (a b : char) : ceq a b = false <-> a <> b.
Proof. apply N.eqb_neq. Qed.

Lemma ceq_refl (a : char) : ceq a a = true.
Proof. apply N.eqb_refl. Qed.

Lemma str_eqb_eq (a b : str) : str_eqb a b = true <-> a = b.
Proof.
  revert b. induction a as [|x a IH]; intros [|y b]; simpl;
    try (split; intros; congruence).
  rewrite andb_true_iff, ceq_eq, IH. split.
  - intros [-> ->]. reflexivity.
  - intros H. inversion H. auto.
Qed.

Lemma includes_In (c : char) (s : str) : includes c s = true <-> In c s.
Proof.
  unfold includes. rewrite existsb_exists. split.
  - intros [x [Hin Hx]]. apply ceq_eq in Hx. subst. exact Hin.
  - intros H. exists c. split; [exact H | apply ceq_refl].
Qed.

Lemma includes_false (c : char) (s : str) :
  includes c s = false <-> ~ In c s.
Proof.
  rewrite <- includes_In. destruct (includes c s); split; congruence.
Qed.

Lemma trimStart_head (s : str) (c : char) (tl : str) :
  trimStart s = c :: tl -> isWhiteSpace c = false.
Proof.
  induction s as [|x s IH]; simpl; [discriminate|].
  destruct (isWhiteSpace x) eqn:E; [exact IH|].
  intros H. inversion H. subst. exact E.
Qed.

Lemma trimStart_suffix (s : str) :
  exists pre, s = pre ++ trimStart s /\ Forall (fun c => isWhiteSpace c = true) pre.
Proof.
  induction s as [|x s [pre [IH1 IH2]]]; simpl.
  - exists []. split; [reflexivity | constructor].
  - destruct (isWhiteSpace x) eqn:E.
    + exists (x :: pre). split; [simpl; f_equal; exact IH1 | constructor; assumption].
    + exists []. split; [reflexivity | constructor].
Qed.

Lemma trimEnd_prefix (s : str) : exists suf, s = trimEnd s ++ suf.
Proof.
  unfold trimEnd. destruct (trimStart_suffix (rev s)) as [pre [H _]].
  exists (rev pre). rewrite <- rev_app_distr, <- H, rev_involutive. reflexivity.
Qed.

Lemma trim_trimmed (s : str) : trimmed (trim s).
Proof.
  unfold trim. split.
  - intros c tl H.
    destruct (trimEnd_prefix (trimStart s)) as [suf Hs].
    rewrite H in Hs. simpl in Hs. eapply trimStart_head. exact Hs.
  - intros c front H. unfold trimEnd in H.
    apply (f_equal (@rev char)) in H.
    rewrite rev_involutive, rev_app_distr in H. simpl in H.
    eapply trimStart_head. exact H.
Qed.



Lemma trimStart_nonempty (s : str) (c : char) :
  In c s -> isWhiteSpace c = false -> trimStart s <> [].
Proof.
  induction s as [|x s IH]; simpl; [tauto|].
  intros [->|Hin] Hc.
  - rewrite Hc. discriminate.
  - destruct (isWhiteSpace x); [auto | discriminate].
Qed.

Lemma trimStart_In (s : str) (c : char) :
  In c s -> isWhiteSpace c = false -> In c (trimStart s).
Proof.
  induction s as [|x s IH]; simpl; [tauto|].
  intros [->|Hin] Hc.
  - rewrite Hc. left. reflexivity.
  - destruct (isWhiteSpace x); [auto | right; exact Hin].
Qed.

(** A character that is not white space survives [trim]. *)
Lemma trim_In (s : str) (c : char) :
  In c s -> isWhiteSpace c = false -> In c (trim s).
Proof.
  intros Hin Hc. unfold trim, trimEnd.
  apply in_rev. rewrite rev_involutive.
  apply trimStart_In; [|exact Hc].
  apply -> in_rev. apply trimStart_In; assumption.
Qed.

Lemma trim_incl (s : str) (c : char) : In c (trim s) -> In c s.
Proof.
  intros H. unfold trim in H.
  destruct (trimEnd_prefix (trimStart s)) as [suf Hs].
  destruct (trimStart_suffix s) as [pre [Hp _]].
  rewrite Hp, Hs. apply in_or_app. right. apply in_or_app. left. exact H.
Qed.

(** [split] cuts at every separator: one more piece than separators. *)
Lemma split_nonempty (sep : char) (s : str) : split sep s <> [].
Proof.
  destruct s as [|c tl]; simpl; [discriminate|].
  destruct (ceq c sep); [discriminate|].
  destruct (split sep tl); discriminate.
Qed.

Lemma split_length (sep : char) (s : str) :
  length (split sep s) = S (length (filter (ceq sep) s)).
Proof.
  induction s as [|c tl IH]; simpl; [reflexivity|].
  replace (ceq sep c) with (ceq c sep) by apply N.eqb_sym.
  destruct (ceq c sep); simpl.
  - rewrite IH. reflexivity.
  - destruct (split sep tl) eqn:E; [exfalso; eapply split_nonempty; eauto|].
    simpl in *. exact IH.
Qed.

Lemma filter_nil_notin (sep : char) (s : str) :
  filter (ceq sep) s = [] <-> ~ In sep s.
Proof.
  induction s as [|c tl IH]; simpl; [tauto|].
  destruct (ceq sep c) eqn:E.
  - apply ceq_eq in E. subst. split; [discriminate | intros H; exfalso; auto].
  - apply ceq_neq in E. rewrite IH. split; [intros H [?|?]; auto | tauto].
Qed.

Lemma split_short (sep : char) (s : str) :
  (length (split sep s) < 2)%nat <-> ~ In sep s.
Proof.
  rewrite split_length, <- filter_nil_notin.
  destruct (filter (ceq sep) s); simpl; split; intros; try lia; congruence.
Qed.

Lemma split_hd (s : str) : hd [] (split newline s) = firstLine s.
Proof.
  induction s as [|c tl IH]; simpl; [reflexivity|].
  destruct (ceq c newline); [reflexivity|].
  destruct (split newline tl) eqn:E; simpl in *; congruence.
Qed.

(** ** Document-level checks of the import *)

(** C10. A document that, once trimmed, holds no line break (fewer than two
    lines, the bare header line included) is rejected with the empty-file
    error whatever its first line is; the journal is returned unchanged and
    the result is never a successful import of zero rows. *)
Theorem short_document_is_empty_file_error (st : journal) (csvText : str) :
  ~ In newline (trim csvText) ->
  processCSVData st csvText = (st, CsvEmpty)
  /\ (forall st', processCSVData st csvText <> (st', Imported 0 0)).
Proof.
  intros H. apply split_short in H. apply Nat.ltb_lt in H.
  unfold processCSVData. rewrite H. split; [reflexivity|].
  intros st' E. discriminate E.
Qed.

Lemma short_document_is_empty_file_error_witness :
  ~ In newline (trim (CSV_HEADER ++ [newline]))
  /\ processCSVData initial (CSV_HEADER ++ [newline]) = (initial, CsvEmpty).
Proof.
  assert (H : ~ In newline (trim (CSV_HEADER ++ [newline]))).
  { apply includes_false. vm_compute. reflexivity. }
  split; [exact H|].
  exact (proj1 (short_document_is_empty_file_error initial _ H)).
Defined.

(** C7 (as the code has it). For a document of at least two lines the header
    check compares the first line with surrounding white space removed: when
    that differs from the header the import stops with the header error and
    the journal is unchanged; when it equals the header the document is not
    rejected and the data lines are imported. *)
Theorem header_compared_after_trim (st : journal) (csvText : str) :
  In newline (trim csvText) ->
  (trim (firstLine (trim csvText)) <> CSV_HEADER ->
   processCSVData st csvText = (st, InvalidHeader))
  /\ (trim (firstLine (trim csvText)) = CSV_HEADER ->
      exists st' imported skipped,
        processCSVData st csvText = (st', Imported imported skipped)).
Proof.
  intros Hnl. unfold processCSVData.
  destruct (length (split newline (trim csvText)) <? 2)%nat eqn:E.
  { apply Nat.ltb_lt in E. apply split_short in E. contradiction. }
  rewrite split_hd. split; intros H.
  - destruct (str_eqb (trim (firstLine (trim csvText))) CSV_HEADER) eqn:Eh.
    + apply str_eqb_eq in Eh. contradiction.
    + reflexivity.
  - apply str_eqb_eq in H. rewrite H. simpl. eauto.
Qed.

Lemma header_compared_after_trim_witness :
  In newline (trim wrongHeaderDoc)
  /\ trim (firstLine (trim wrongHeaderDoc)) <> CSV_HEADER
  /\ processCSVData initial wrongHeaderDoc = (initial, InvalidHeader).
Proof.
  assert (H1 : In newline (trim wrongHeaderDoc)).
  { apply includes_In. vm_compute. reflexivity. }
  assert (H2 : trim (firstLine (trim wrongHeaderDoc)) <> CSV_HEADER).
  { intros E. apply str_eqb_eq in E. vm_compute in E. discriminate E. }
  split; [exact H1|]. split; [exact H2|].
  exact (proj1 (header_compared_after_trim initial wrongHeaderDoc H1) H2).
Defined.

(** C7 as stated fails: a first line that differs from the header by a
    trailing blank is accepted and its data line imported; and a one-line
    document with a wrong header gets the empty-file error, not the header
    error. *)
Lemma header_not_compared_exactly :
  firstLine paddedHeaderDoc <> CSV_HEADER
  /\ processCSVData initial paddedHeaderDoc
     = ({| trades := [ {| id := Id 1; date := lit "2024-01-01";
                          tradeSetup := lit "Scalp: W"; ticker := None;
                          rr := lit "1.5:1"; pnl := Num 100;
                          activeMgmt := lit "+EV"; execution := lit "A";
                          note := lit "ok" |} ];
           nextId := 2; editId := None |}, Imported 1 0)
  /\ firstLine (lit "Id;Date") <> CSV_HEADER
  /\ processCSVData initial (lit "Id;Date") = (initial, CsvEmpty).
Proof.
  split; [intros E; apply str_eqb_eq in E; vm_compute in E; discriminate E|].
  split; [vm_compute; reflexivity|].
  split; [intros E; apply str_eqb_eq in E; vm_compute in E; discriminate E|].
  vm_compute. reflexivity.
Qed.

(** ** The line parser *)

(** C9. Every text field of a decoded record is trimmed: it neither starts
    nor ends with white space, whatever the CSV field text held. *)
Theorem parsed_text_fields_trimmed (line : str) (t : trade) :
  parseCSVLine line = Some t ->
  trimmed (date t) /\ trimmed (tradeSetup t) /\ trimmed (rr t)
  /\ trimmed (activeMgmt t) /\ trimmed (execution t) /\ trimmed (note t).
Proof.
  unfold parseCSVLine.
  destruct (scanLine None line [] [] false)
    as [|f1 [|f2 [|f3 [|f4 [|f5 [|f6 [|f7 [|f8 [|f9 more]]]]]]]]];
    try discriminate.
  destruct (isEmpty f1 || isEmpty f2 || isEmpty f3 || isEmpty f4
            || isEmpty f5 || isEmpty f6 || isEmpty f7); [discriminate|].
  intros H. inversion H. subst t. simpl.
  repeat split; apply trim_trimmed.
Qed.

Lemma parsed_text_fields_trimmed_witness :
  parseCSVLine spacedLine = Some spacedTrade
  /\ trimmed (date spacedTrade) /\ trimmed (note spacedTrade).
Proof.
  assert (H : parseCSVLine spacedLine = Some spacedTrade).
  { vm_compute. reflexivity. }
  split; [exact H|].
  destruct (parsed_text_fields_trimmed spacedLine _ H) as [Hd [_ [_ [_ [_ Hn]]]]].
  split; [exact Hd | exact Hn].
Defined.

(** Induction on a string where the step may consume one or two
    characters, as the scanning loop does. *)
Lemma str_ind2 (P : str -> Prop) :
  P [] ->
  (forall c tl, P tl -> (forall d tl', tl = d :: tl' -> P tl') -> P (c :: tl)) ->
  forall s, P s.
Proof.
  intros H0 Hs s.
  assert (H : P s /\ (forall d tl', s = d :: tl' -> P tl')).
  { induction s as [|c tl [IH1 IH2]].
    - split; [exact H0 | intros; discriminate].
    - split; [apply Hs; assumption|].
      intros d tl' E. inversion E. subst. exact IH1. }
  exact (proj1 H).
Qed.

(** Without a comma left to read the loop closes exactly one more field. *)
Lemma scanLine_no_comma (rest : str) :
  ~ In comma rest ->
  forall prev fields current inQuotes,
    length (scanLine prev rest fields current inQuotes) = S (length fields).
Proof.
  induction rest as [|c tl IH1 IH2] using str_ind2; intros Hc prev fields current inQuotes.
  - simpl. rewrite length_app. simpl. lia.
  - assert (Hc1 : c <> comma) by (intros E; apply Hc; left; exact E).
    assert (Hc2 : ~ In comma tl) by (intros E; apply Hc; right; exact E).
    apply ceq_neq in Hc1. simpl. rewrite Hc1. simpl.
    repeat match goal with
           | |- context [if ?b then _ else _] => destruct b
           end; try (apply IH1; exact Hc2).
    destruct tl as [|d tl'].
    + rewrite length_app. simpl. lia.
    + apply (IH2 d tl' eq_refl). intros E. apply Hc2. right. exact E.
Qed.

(** A line that splits into more than one field is not blank. *)
Lemma scanLine_many_not_blank (line : str) :
  (1 < length (scanLine None line [] [] false))%nat ->
  isEmpty (trim line) = false.
Proof.
  intros H.
  destruct (in_dec N.eq_dec comma line) as [Hin|Hnot].
  - assert (Ht : In comma (trim line)) by (apply trim_In; [exact Hin | reflexivity]).
    destruct (trim line); [contradiction | reflexivity].
  - rewrite (scanLine_no_comma line Hnot) in H. simpl in H. lia.
Qed.

(** The validation the parser does perform: a line that splits into eight
    fields and has an empty required field is skipped; no record is decoded,
    the journal is left as it is and the skip count grows by exactly one. *)
Theorem empty_required_field_is_skipped (r : importRun) (line : str)
    (fid fdate ftradeSetup frr fpnl factiveMgmt fexecution fnote : str) :
  scanLine None line [] [] false
  = [fid; fdate; ftradeSetup; frr; fpnl; factiveMgmt; fexecution; fnote] ->
  fid = [] \/ fdate = [] \/ ftradeSetup = [] \/ frr = [] \/ fpnl = []
  \/ factiveMgmt = [] \/ fexecution = [] ->
  parseCSVLine line = None /\ importLine r line = skipOne r.
Proof.
  intros Hscan Hempty.
  assert (Hp : parseCSVLine line = None).
  { unfold parseCSVLine. rewrite Hscan.
    replace (isEmpty fid || isEmpty fdate || isEmpty ftradeSetup || isEmpty frr
             || isEmpty fpnl || isEmpty factiveMgmt || isEmpty fexecution)
      with true; [reflexivity|].
    symmetry. repeat rewrite orb_true_iff.
    repeat (destruct Hempty as [->|Hempty]; [simpl; tauto|]).
    subst. simpl. tauto. }
  split; [exact Hp|].
  unfold importLine. rewrite Hp.
  rewrite scanLine_many_not_blank; [reflexivity|].
  rewrite Hscan. simpl. lia.
Qed.

Lemma empty_required_field_is_skipped_witness :
  parseCSVLine noDateLine = None
  /\ importLine (startRun initial) noDateLine = skipOne (startRun initial).
Proof.
  apply (empty_required_field_is_skipped (startRun initial) noDateLine
           (lit "1") (lit "") (lit "Scalp: W") (lit "1:1") (lit "100")
           (lit "+EV") (lit "A") (lit "ok")).
  - vm_compute. reflexivity.
  - right. left. reflexivity.
Defined.

(** C3 fails on the code: a line of eight fields whose identifier does not
    parse as an integer, or whose PnL does not parse as a number, is not
    skipped; it is imported with a [NaN] in that place, the import count
    grows and the skip count does not. *)
Lemma unparsable_numbers_are_imported :
  length (scanLine None nanIdLine [] [] false) = 8%nat
  /\ parseInt (lit "abc") = IdNaN
  /\ importLine (startRun initial) nanIdLine
     = {| runJournal :=
            {| trades := [ {| id := IdNaN; date := lit "2024-01-01";
                              tradeSetup := lit "Scalp: W"; ticker := None;
                              rr := lit "1:1"; pnl := Num 100;
                              activeMgmt := lit "+EV"; execution := lit "A";
                              note := lit "ok" |} ];
               nextId := 1; editId := None |};
          importedCount := 1; skippedCount := 0 |}
  /\ length (scanLine None nanPnlLine [] [] false) = 8%nat
  /\ parseFloat (lit "n/a") = NaN
  /\ importLine (startRun initial) nanPnlLine
     = {| runJournal :=
            {| trades := [ {| id := Id 7; date := lit "2024-01-01";
                              tradeSetup := lit "Scalp: W"; ticker := None;
                              rr := lit "1:1"; pnl := NaN;
                              activeMgmt := lit "+EV"; execution := lit "A";
                              note := lit "ok" |} ];
               nextId := 8; editId := None |};
          importedCount := 1; skippedCount := 0 |}.
Proof. vm_compute. repeat split. Qed.

(** ** The encoder *)

Lemma doubleQuotes_flat_map (s : str) :
  doubleQuotes s
  = flat_map (fun c => if ceq c dquote then [dquote; dquote] else [c]) s.
Proof.
  induction s as [|c tl IH]; simpl; [reflexivity|].
  destruct (ceq c dquote); simpl; rewrite IH; reflexivity.
Qed.

Lemma escapeCSVField_law (s : str) : encodesField s (escapeCSVField s).
Proof.
  unfold encodesField, escapeCSVField, needsQuoting, quoteWrapped.
  destruct (includes comma s) eqn:E1; simpl.
  { left. split; [left; apply includes_In; exact E1|].
    rewrite doubleQuotes_flat_map. reflexivity. }
  destruct (includes newline s) eqn:E2; simpl.
  { left. split; [right; right; apply includes_In; exact E2|].
    rewrite doubleQuotes_flat_map. reflexivity. }
  destruct (includes dquote s) eqn:E3; simpl.
  { left. split; [right; left; apply includes_In; exact E3|].
    rewrite doubleQuotes_flat_map. reflexivity. }
  right. split; [|reflexivity].
  apply includes_false in E1, E2, E3. tauto.
Qed.

(** C5 (as the code has it). The quoting law (wrapped in double quotes with
    every inner double quote doubled exactly when the text holds a comma, a
    double quote or a line break) is applied to the note and, in the last
    revision only, to the active-management field; every other field is
    written as it is. *)
Theorem only_note_follows_quoting_law (rev : revision) (t : trade) :
  exists am' note',
    csvRow rev t
    = join [comma] [ idToString (id t); date t; tradeSetup t; rr t;
                     numberToString (pnl t); am'; execution t; note' ]
    /\ encodesField (note t) note'
    /\ match rev with
       | Rev3 => encodesField (activeMgmt t) am'
       | _ => am' = activeMgmt t
       end.
Proof.
  exists (match rev with Rev3 => escapeCSVField (activeMgmt t) | _ => activeMgmt t end).
  exists (escapeCSVField (note t)).
  split; [reflexivity|]. split; [apply escapeCSVField_law|].
  destruct rev; try reflexivity. apply escapeCSVField_law.
Qed.

(** C5 as stated fails: in every revision a date that holds a comma is
    written without quotes, so the encoded fields do not all follow the
    quoting law. *)
Lemma date_with_comma_not_quoted :
  needsQuoting (date commaTrade)
  /\ csvRow Rev1 commaTrade = lit "3,Jan 5, 2024,Swing: PB,2:1,40,N/A,B,"
  /\ csvRow Rev2 commaTrade = lit "3,Jan 5, 2024,Swing: PB,2:1,40,N/A,B,"
  /\ csvRow Rev3 commaTrade = lit "3,Jan 5, 2024,Swing: PB,2:1,40,N/A,B,"
  /\ ~ Forall2 encodesField (fieldTexts commaTrade) (rowFields Rev1 commaTrade)
  /\ ~ Forall2 encodesField (fieldTexts commaTrade) (rowFields Rev2 commaTrade)
  /\ ~ Forall2 encodesField (fieldTexts commaTrade) (rowFields Rev3 commaTrade).
Proof.
  assert (Hn : needsQuoting (date commaTrade)).
  { left. apply includes_In. vm_compute. reflexivity. }
  assert (Hd : ~ encodesField (date commaTrade) (date commaTrade)).
  { intros [[_ E]|[Hc _]]; [vm_compute in E; discriminate E | exact (Hc Hn)]. }
  split; [exact Hn|].
  split; [vm_compute; reflexivity|].
  split; [vm_compute; reflexivity|].
  split; [vm_compute; reflexivity|].
  repeat split; intros H; apply Hd; simpl in H;
    inversion H as [|? ? ? ? _ Htl]; inversion Htl as [|? ? ? ? Hdate _];
    exact Hdate.
Qed.

(** ** The update path *)

Lemma findIndex_Some (i : ident) (ts : list trade) (k : nat) :
  findIndex i ts = Some k ->
  exists old, nth_error ts k = Some old /\ idEq (id old) i = true.
Proof.
  revert k. induction ts as [|t tl IH]; simpl; intros k; [discriminate|].
  destruct (idEq (id t) i) eqn:E.
  - intros H. inversion H. subst. exists t. split; [reflexivity | exact E].
  - destruct (findIndex i tl) as [k'|]; simpl; [|discriminate].
    intros H. inversion H. subst. simpl. apply IH. reflexivity.
Qed.

Lemma findIndex_None (i : ident) (ts : list trade) :
  findIndex i ts = None <-> (forall t, In t ts -> idEq (id t) i = false).
Proof.
  induction ts as [|t tl IH]; simpl.
  - split; [intros _ t [] | reflexivity].
  - destruct (idEq (id t) i) eqn:E.
    + split; [discriminate|]. intros H. rewrite (H t (or_introl eq_refl)) in E.
      discriminate.
    + destruct (findIndex i tl) as [k|]; simpl.
      * split; [discriminate|]. intros H.
        assert (Hk : Some k = None); [|discriminate Hk].
        apply IH. intros x Hx. apply H. right. exact Hx.
      * split; [|reflexivity]. intros _ x [<-|Hx]; [exact E|].
        apply (proj1 IH eq_refl). exact Hx.
Qed.

Lemma idEq_true (a b : ident) : idEq a b = true -> a = b.
Proof.
  destruct a, b; simpl; try discriminate.
  intros H. apply Z.eqb_eq in H. subst. reflexivity.
Qed.

Lemma setAt_length (k : nat) (t : trade) (ts : list trade) :
  length (setAt k t ts) = length ts.
Proof.
  revert k. induction ts as [|x tl IH]; intros [|k]; simpl; auto.
Qed.

Lemma setAt_same (k : nat) (t old : trade) (ts : list trade) :
  nth_error ts k = Some old -> nth_error (setAt k t ts) k = Some t.
Proof.
  revert k. induction ts as [|x tl IH]; intros [|k]; simpl; try discriminate; auto.
Qed.

Lemma setAt_other (k j : nat) (t : trade) (ts : list trade) :
  j <> k -> nth_error (setAt k t ts) j = nth_error ts j.
Proof.
  revert k j. induction ts as [|x tl IH]; intros [|k] [|j] H; simpl; auto.
  congruence.
Qed.

Lemma setAt_In (k : nat) (t x : trade) (ts : list trade) :
  In x (setAt k t ts) -> x = t \/ In x ts.
Proof.
  revert k. induction ts as [|y tl IH]; intros [|k]; simpl; try tauto.
  - intros [H|H]; auto.
  - intros [H|H]; auto. destruct (IH k H); auto.
Qed.

(** C8. With a record open in the edit form and form data that pass the
    validation: if some record carries the edited identifier, one such
    record keeps its identifier and date and takes every other field from
    the form data, all other positions of the collection are unchanged and
    so are its length and the counter; if no record carries it, the
    operation reports the failure and returns the journal unchanged. *)
Theorem update_keeps_id_and_date (rev : revision) (st : journal) (raw : form)
    (today : str) (eid : ident) :
  hasTicker rev = true ->
  editId st = Some eid ->
  validateRRInput (f_rr raw) = true ->
  validateFormData rev (getFormData rev raw) = None ->
  ((exists t, In t (trades st) /\ idEq (id t) eid = true) ->
   exists k old st',
     addTrade rev st raw today = (st', Some (TradeUpdated eid))
     /\ nth_error (trades st) k = Some old
     /\ id old = eid
     /\ nth_error (trades st') k = Some (updatedFrom old (getFormData rev raw))
     /\ (forall j, j <> k -> nth_error (trades st') j = nth_error (trades st) j)
     /\ length (trades st') = length (trades st)
     /\ nextId st' = nextId st)
  /\ ((forall t, In t (trades st) -> idEq (id t) eid = false) ->
      addTrade rev st raw today = (st, Some UpdateNotFound)).
Proof.
  intros Hrev Hedit Hrr Hval. unfold addTrade.
  rewrite Hrr, Hval, Hrev, Hedit. simpl. split.
  - intros [t [Hin Ht]].
    destruct (findIndex eid (trades st)) as [k|] eqn:Ef.
    + destruct (findIndex_Some _ _ _ Ef) as [old [Hold Hid]].
      apply idEq_true in Hid.
      eexists k, old, _. split; [reflexivity|]. simpl.
      split; [exact Hold|]. split; [exact Hid|].
      split; [|split; [|split]].
      * rewrite (setAt_same _ _ _ _ Hold). rewrite Hold.
        unfold updatedFrom. rewrite Hid. reflexivity.
      * intros j Hj. apply setAt_other. exact Hj.
      * apply setAt_length.
      * reflexivity.
    + rewrite (proj1 (findIndex_None _ _) Ef t Hin) in Ht. discriminate.
  - intros Hnone. apply findIndex_None in Hnone. rewrite Hnone. reflexivity.
Qed.

Lemma update_keeps_id_and_date_witness :
  exists k old st',
    addTrade Rev3 editingJournal editForm (lit "2024-02-02")
    = (st', Some (TradeUpdated (Id 1)))
    /\ nth_error (trades editingJournal) k = Some old
    /\ id old = Id 1
    /\ nth_error (trades st') k = Some (updatedFrom old (getFormData Rev3 editForm))
    /\ (forall j, j <> k -> nth_error (trades st') j = nth_error (trades editingJournal) j)
    /\ length (trades st') = length (trades editingJournal)
    /\ nextId st' = nextId editingJournal.
Proof.
  apply (update_keeps_id_and_date Rev3 editingJournal editForm
           (lit "2024-02-02") (Id 1)).
  - reflexivity.
  - reflexivity.
  - vm_compute. reflexivity.
  - vm_compute. reflexivity.
  - exists sampleTrade. split; [left; reflexivity | reflexivity].
Defined.

Example update_sample :
  addTrade Rev3 editingJournal editForm (lit "2024-02-02")
  = ({| trades := [ {| id := Id 1; date := lit "2024-01-01";
                       tradeSetup := lit "Swing: N"; ticker := Some (lit "BTC");
                       rr := lit "2:1"; pnl := Num (-25 # 2);
                       activeMgmt := lit "N/A"; execution := lit "C";
                       note := lit "late exit" |};
                    spacedTrade ];
        nextId := 8; editId := None |}, Some (TradeUpdated (Id 1))).
Proof. vm_compute. reflexivity. Qed.

(** ** Reconciliation of identifiers *)

Lemma existsb_idEq_true (i : ident) (ts : list trade) :
  existsb (fun x => idEq (id x) i) ts = true
  <-> exists x, In x ts /\ idEq (id x) i = true.
Proof. apply existsb_exists. Qed.



(** [mergeTrade] keeps every identifier below the counter. *)
Lemma mergeTrade_idsBelow (st : journal) (t : trade) :
  idsBelowCounter st -> idsBelowCounter (mergeTrade st t).
Proof.
  intros Hinv x Hx. unfold mergeTrade in *. simpl in *.
  apply in_app_or in Hx.
  destruct (existsb (fun y => idEq (id y) (id t)) (trades st)) eqn:Ec; simpl in *.
  - assert (Hn : (if nextId st + 1 <=? nextId st then nextId st + 1
                  else nextId st + 1) = nextId st + 1)
      by (destruct (nextId st + 1 <=? nextId st); reflexivity).
    rewrite Hn in *.
    destruct Hx as [Hx|[<-|[]]].
    + specialize (Hinv x Hx). destruct (id x); simpl in *; [reflexivity|].
      apply Z.leb_gt in Hinv. apply Z.leb_gt. lia.
    + simpl. apply Z.leb_gt. lia.
  - destruct (id t) as [|z] eqn:Et.
    + destruct Hx as [Hx|[<-|[]]]; [apply Hinv; exact Hx | rewrite Et; reflexivity].
    + destruct (nextId st <=? z) eqn:El.
      * apply Z.leb_le in El.
        destruct Hx as [Hx|[<-|[]]].
        -- specialize (Hinv x Hx). destruct (id x); simpl in *; [reflexivity|].
           apply Z.leb_gt in Hinv. apply Z.leb_gt. lia.
        -- rewrite Et. simpl. apply Z.leb_gt. lia.
      * destruct Hx as [Hx|[<-|[]]]; [apply Hinv; exact Hx|].
        rewrite Et. simpl. exact El.
Qed.





(** ** The counter and the identifiers *)

Lemma removeAt_In (k : nat) (x : trade) (ts : list trade) :
  In x (removeAt k ts) -> In x ts.
Proof.
  revert k. induction ts as [|y tl IH]; intros [|k]; simpl; try tauto.
  intros [H|H]; [left; exact H | right; exact (IH k H)].
Qed.

Lemma addTrade_idsBelow (rev : revision) (st : journal) (raw : form) (today : str) :
  idsBelowCounter st -> idsBelowCounter (fst (addTrade rev st raw today)).
Proof.
  intros Hinv. unfold addTrade.
  destruct (negb (validateRRInput (f_rr raw))); [exact Hinv|].
  destruct (validateFormData rev (getFormData rev raw)); [exact Hinv|].
  destruct (if hasTicker rev then editId st else None) as [eid|].
  - destruct (findIndex eid (trades st)) as [k|] eqn:Ef; [|exact Hinv].
    destruct (findIndex_Some _ _ _ Ef) as [old [Hold Hid]].
    intros x Hx. simpl in *. apply setAt_In in Hx. destruct Hx as [->|Hx].
    + simpl. apply idEq_true in Hid. rewrite <- Hid.
      apply Hinv. eapply nth_error_In. exact Hold.
    + apply Hinv. exact Hx.
  - intros x Hx. simpl in *. apply in_app_or in Hx.
    destruct Hx as [Hx|[<-|[]]].
    + specialize (Hinv x Hx). destruct (id x); simpl in *; [reflexivity|].
      apply Z.leb_gt in Hinv. apply Z.leb_gt. lia.
    + simpl. apply Z.leb_gt. lia.
Qed.

Lemma importLine_idsBelow (r : importRun) (line : str) :
  idsBelowCounter (runJournal r) -> idsBelowCounter (runJournal (importLine r line)).
Proof.
  intros Hinv. unfold importLine.
  destruct (isEmpty (trim line)); [exact Hinv|].
  destruct (parseCSVLine line); [|exact Hinv].
  simpl. apply mergeTrade_idsBelow. exact Hinv.
Qed.

Lemma importLines_idsBelow (lines : list str) (r : importRun) :
  idsBelowCounter (runJournal r) ->
  idsBelowCounter (runJournal (fold_left importLine lines r)).
Proof.
  revert r. induction lines as [|l ls IH]; intros r Hinv; simpl; [exact Hinv|].
  apply IH. apply importLine_idsBelow. exact Hinv.
Qed.

Lemma processCSVData_idsBelow (st : journal) (csvText : str) :
  idsBelowCounter st -> idsBelowCounter (fst (processCSVData st csvText)).
Proof.
  intros Hinv. unfold processCSVData.
  destruct (length (split newline (trim csvText)) <? 2)%nat; [exact Hinv|].
  destruct (negb (str_eqb (trim (hd [] (split newline (trim csvText)))) CSV_HEADER));
    [exact Hinv|].
  simpl. apply importLines_idsBelow. exact Hinv.
Qed.

Lemma step_idsBelow (rev : revision) (st st' : journal) :
  step rev st st' -> idsBelowCounter st -> idsBelowCounter st'.
Proof.
  intros Hstep Hinv. destruct Hstep.
  - apply addTrade_idsBelow. exact Hinv.
  - unfold loadTradeForEdit.
    destruct (existsb (fun t => idEq (id t) i) (trades st)); exact Hinv.
  - exact Hinv.
  - unfold deleteTrade. destruct (findIndex i (trades st)); [|exact Hinv].
    destruct confirmed; [|exact Hinv].
    intros x Hx. simpl in *. apply Hinv. eapply removeAt_In. exact Hx.
  - destruct confirmed; [|exact Hinv]. intros x [].
  - apply processCSVData_idsBelow. exact Hinv.
Qed.

(** What the code does maintain: in every reachable state no identifier is
    greater than or equal to the counter. *)
Lemma reachable_idsBelow (rev : revision) (st : journal) :
  reachable rev st -> idsBelowCounter st.
Proof.
  induction 1 as [|st st' _ IH Hstep].
  - intros x [].
  - exact (step_idsBelow _ _ _ Hstep IH).
Qed.

(** Hence the counter is strictly above every identifier of a reachable
    state whose identifiers are all integers. *)
Lemma reachable_numeric_counterAbove (rev : revision) (st : journal) :
  reachable rev st -> numericIds st -> counterAbove st.
Proof.
  intros Hr Hnum x Hx.
  pose proof (reachable_idsBelow _ _ Hr x Hx) as Hb.
  specialize (Hnum x Hx).
  destruct (id x); simpl in *; [congruence|].
  apply Z.leb_gt in Hb. apply Z.ltb_lt. exact Hb.
Qed.

(** C4 fails on the code: importing, into the empty journal, a document
    whose data line has a non-numeric identifier stores a trade whose
    identifier is [NaN] and leaves the counter at 1; the counter is not
    greater than that identifier. *)
Theorem nan_identifier_breaks_counter_invariant :
  processCSVData initial nanIdDoc
  = ({| trades := [ {| id := IdNaN; date := lit "2024-01-01";
                       tradeSetup := lit "Scalp: W"; ticker := None;
                       rr := lit "1:1"; pnl := Num 100;
                       activeMgmt := lit "+EV"; execution := lit "A";
                       note := lit "ok" |} ];
        nextId := 1; editId := None |}, Imported 1 0)
  /\ reachable Rev1 (fst (processCSVData initial nanIdDoc))
  /\ reachable Rev2 (fst (processCSVData initial nanIdDoc))
  /\ reachable Rev3 (fst (processCSVData initial nanIdDoc))
  /\ ~ counterAbove (fst (processCSVData initial nanIdDoc)).
Proof.
  assert (E : processCSVData initial nanIdDoc
              = ({| trades := [ {| id := IdNaN; date := lit "2024-01-01";
                                   tradeSetup := lit "Scalp: W"; ticker := None;
                                   rr := lit "1:1"; pnl := Num 100;
                                   activeMgmt := lit "+EV"; execution := lit "A";
                                   note := lit "ok" |} ];
                    nextId := 1; editId := None |}, Imported 1 0)).
  { vm_compute. reflexivity. }
  split; [exact E|].
  repeat split;
    try (eapply reach_step; [apply reach_initial | apply step_import]).
  intros H. rewrite E in H. simpl in H.
  specialize (H _ (or_introl eq_refl)). simpl in H. discriminate H.
Qed.

(** ** The aggregator *)

Example stats_of_specExample :
  calculateStats specExample
  = {| overall := {| totalPnl := Num 250; totalTrades := 3; winRate := 67;
                     avgWin := Num 150; avgLoss := Num 50 |};
       scalp := {| totalPnl := Num 50; totalTrades := 2; winRate := 50;
                   avgWin := Num 100; avgLoss := Num 50 |};
       swing := {| totalPnl := Num 200; totalTrades := 1; winRate := 100;
                   avgWin := Num 200; avgLoss := Num 0 |} |}.
Proof. vm_compute. reflexivity. Qed.

Lemma nadd_comm (a b : number) : nadd a b = nadd b a.
Proof.
  destruct a, b; simpl; try reflexivity.
  f_equal. apply Qred_complete. ring.
Qed.

Lemma nadd_assoc (a b c : number) : nadd a (nadd b c) = nadd (nadd a b) c.
Proof.
  destruct a, b, c; simpl; try reflexivity.
  f_equal. apply Qred_complete. rewrite !Qred_correct. ring.
Qed.

Lemma sumPnl_total (ts : list trade) : sumPnl ts = total (map pnl ts).
Proof.
  unfold sumPnl, total.
  rewrite <- (fold_symmetric nadd nadd_assoc nzero (fun y => nadd_comm nzero y)).
  generalize nzero. induction ts as [|t tl IH]; intros z; simpl; [reflexivity|].
  apply IH.
Qed.

Lemma map_filter_pnl (f : number -> bool) (ts : list trade) :
  map pnl (filter (fun t => f (pnl t)) ts) = filter f (map pnl ts).
Proof.
  induction ts as [|t tl IH]; simpl; [reflexivity|].
  destruct (f (pnl t)); simpl; rewrite IH; reflexivity.
Qed.




Lemma filter_Forall (f : number -> bool) (xs : list number) :
  Forall (fun x => f x = true) (filter f xs).
Proof.
  apply Forall_forall. intros x Hx. apply filter_In in Hx. tauto.
Qed.

(** [Math.round] of the win percentage is the nearest integer. *)
Lemma winRate_nearest (w n : nat) :
  (0 < n)%nat ->
  nearestPercent w n
    (mathRound (inject_Z (Z.of_nat w) / inject_Z (Z.of_nat n) * 100)%Q).
Proof.
  intros Hn. unfold nearestPercent, mathRound.
  set (W := Z.of_nat w). set (N := Z.of_nat n).
  assert (HN : 0 < N) by (unfold N; lia).
  set (x := (inject_Z W / inject_Z N * 100 + (1 # 2))%Q).
  pose proof (Qfloor_le x) as Hlo. pose proof (Qlt_floor x) as Hhi.
  set (r := Qfloor x) in *.
  assert (HNq : (0 < inject_Z N)%Q) by (rewrite <- (Zlt_Qlt 0); exact HN).
  assert (Hx : (x * (2 * inject_Z N) == 200 * inject_Z W + inject_Z N)%Q).
  { unfold x. field. lra. }
  split.
  - rewrite Zle_Qle. unfold Z.sub.
    rewrite !inject_Z_mult, inject_Z_plus, inject_Z_opp, inject_Z_mult.
    assert (H : (inject_Z r * (2 * inject_Z N) <= x * (2 * inject_Z N))%Q).
    { apply Qmult_le_compat_r; [exact Hlo | lra]. }
    rewrite Hx in H. change (inject_Z 2) with 2%Q. change (inject_Z 1) with 1%Q.
    change (inject_Z 200) with 200%Q. lra.
  - rewrite Zlt_Qlt. rewrite !inject_Z_mult, inject_Z_plus, inject_Z_mult.
    assert (H : (x * (2 * inject_Z N) < inject_Z (r + 1) * (2 * inject_Z N))%Q).
    { apply Qmult_lt_compat_r; [lra | exact Hhi]. }
    rewrite Hx, inject_Z_plus in H.
    change (inject_Z 2) with 2%Q. change (inject_Z 1) with 1%Q in *.
    change (inject_Z 200) with 200%Q. lra.
Qed.







(** ** Numbers and their text *)

Lemma isDigit_digitValue (c : char) :
  isDigit c = true -> digitValue c = Some (Z.of_N c - 48).
Proof.
  unfold isDigit, digitValue. intros H. rewrite H.
  apply andb_true_iff in H. destruct H as [H1 H2].
  apply N.leb_le in H1. f_equal. lia.
Qed.

Lemma takeDigits_all (ds : str) (acc : Z) (k : nat) :
  Forall (fun c => isDigit c = true) ds ->
  takeDigits digitValue 10 ds acc k = (digitsValue ds acc, (k + length ds)%nat, []).
Proof.
  intros H. revert acc k. induction H as [|c ds Hc _ IH]; intros acc k; simpl.
  - rewrite Nat.add_0_r. reflexivity.
  - rewrite (isDigit_digitValue _ Hc), IH. unfold digitsValue. simpl.
    f_equal. f_equal. lia.
Qed.

Lemma digitChar_isDigit (d : Z) :
  0 <= d < 10 -> isDigit (Z.to_N (48 + d)) = true.
Proof.
  intros H. unfold isDigit. apply andb_true_iff.
  split; apply N.leb_le; lia.
Qed.

Lemma digitsFuel_digits (fuel : nat) (n : Z) :
  0 <= n -> Forall (fun c => isDigit c = true) (digitsFuel fuel n).
Proof.
  revert n. induction fuel as [|f IH]; intros n Hn; simpl; [constructor|].
  destruct (n <? 10) eqn:E.
  - apply Z.ltb_lt in E. constructor; [apply digitChar_isDigit; lia | constructor].
  - apply Forall_app. split.
    + apply IH. apply Z.div_pos; lia.
    + constructor; [|constructor]. apply digitChar_isDigit.
      apply Z.mod_pos_bound. lia.
Qed.

Lemma digitsValue_snoc (ds : str) (c : char) (acc : Z) :
  digitsValue (ds ++ [c]) acc = digitsValue ds acc * 10 + (Z.of_N c - 48).
Proof. unfold digitsValue. rewrite fold_left_app. reflexivity. Qed.

Lemma digitsFuel_value (fuel : nat) (n : Z) :
  (0 < fuel)%nat -> 0 <= n < 2 ^ Z.of_nat fuel ->
  digitsFuel fuel n <> [] /\ digitsValue (digitsFuel fuel n) 0 = n.
Proof.
  revert n. induction fuel as [|f IH]; intros n Hf Hn; [lia|].
  cbn [digitsFuel]. destruct (n <? 10) eqn:E.
  - apply Z.ltb_lt in E. split; [discriminate|].
    unfold digitsValue. cbn [fold_left]. rewrite Z2N.id by lia. lia.
  - apply Z.ltb_ge in E.
    rewrite Nat2Z.inj_succ, Z.pow_succ_r in Hn by lia.
    assert (Hq : 0 <= n / 10 < 2 ^ Z.of_nat f).
    { split; [apply Z.div_pos; lia|].
      apply Z.div_lt_upper_bound; lia. }
    assert (Hf' : (0 < f)%nat).
    { destruct f; [|lia]. simpl in Hq.
      assert (1 <= n / 10) by (apply Z.div_le_lower_bound; lia). lia. }
    destruct (IH _ Hf' Hq) as [Hne Hv]. split.
    + intros H. apply app_eq_nil in H. destruct H as [_ H]. discriminate H.
    + rewrite digitsValue_snoc, Hv.
      rewrite Z2N.id by (pose proof (Z.mod_pos_bound n 10); lia).
      pose proof (Z.div_mod n 10). lia.
Qed.

Lemma natToString_spec (n : Z) :
  0 <= n ->
  natToString n <> []
  /\ Forall (fun c => isDigit c = true) (natToString n)
  /\ digitsValue (natToString n) 0 = n.
Proof.
  intros Hn. unfold natToString.
  assert (Hb : 0 <= n < 2 ^ Z.of_nat (S (Z.to_nat (Z.log2 n)))).
  { split; [exact Hn|].
    rewrite Nat2Z.inj_succ, Z2Nat.id by apply Z.log2_nonneg.
    destruct (Z.eq_dec n 0) as [->|Hz]; [simpl; lia|].
    apply Z.log2_spec. lia. }
  destruct (digitsFuel_value (S (Z.to_nat (Z.log2 n))) n) as [H1 H2];
    [lia | exact Hb |].
  split; [exact H1|]. split; [apply digitsFuel_digits; exact Hn | exact H2].
Qed.

Lemma isDigit_facts (c : char) :
  isDigit c = true ->
  isWhiteSpace c = false /\ c <> comma /\ c <> dquote /\ c <> newline
  /\ ceq c 45%N = false /\ ceq c 43%N = false
  /\ ceq c 120%N = false /\ ceq c 88%N = false.
Proof.
  unfold isDigit. intros H. apply andb_true_iff in H. destruct H as [H1 H2].
  apply N.leb_le in H1, H2.
  assert (Hw : isWhiteSpace c = false).
  { unfold isWhiteSpace.
    repeat match goal with
           | |- context [(?a <=? ?b)%N] =>
               let E := fresh in destruct (N.leb_spec a b) as [E|E]; try lia
           | |- context [(?a =? ?b)%N] =>
               let E := fresh in destruct (N.eqb_spec a b) as [E|E]; try lia
           end; reflexivity. }
  unfold comma, dquote, newline, ceq.
  repeat split; try exact Hw; try lia; apply N.eqb_neq; lia.
Qed.










(** The PnL condition of [exportable] holds for every whole number. *)
Lemma Qred_integer (z : Z) : Qred (inject_Z z) = inject_Z z.
Proof.
  unfold Qred, inject_Z.
  pose proof (Z.ggcd_gcd z 1) as Hg.
  pose proof (Z.ggcd_correct_divisors z 1) as Hd.
  destruct (Z.ggcd z 1) as [g [aa bb]]. cbn [fst snd] in *.
  rewrite Z.gcd_1_r in Hg. subst g. destruct Hd as [Ha Hb].
  assert (Ea : aa = z) by lia. assert (Eb : bb = 1) by lia.
  rewrite Ea, Eb. reflexivity.
Qed.

Lemma readDecimal_natToString (m : Z) (neg : bool) :
  0 <= m ->
  readDecimal neg (natToString m) = Num (inject_Z (if neg then - m else m)).
Proof.
  intros Hm. destruct (natToString_spec m Hm) as [Hne [Hd Hv]].
  unfold readDecimal. rewrite (takeDigits_all _ 0 0 Hd), Hv.
  destruct (natToString m) as [|c0 tl] eqn:En; [congruence|].
  pose proof (Forall_inv Hd) as Hc0. cbv beta in Hc0.
  assert (Hi : ceq 73%N c0 = false).
  { apply ceq_neq. intros <-. discriminate Hc0. }
  cbn [lit String.list_ascii_of_string map startsWith].
  change (N_of_ascii "I") with 73%N. rewrite Hi. cbn [andb length Nat.add].
  cbv zeta. f_equal.
  etransitivity; [|apply Qred_integer]. apply Qred_complete.
  change (inject_Z 10 ^ 0)%Q with 1%Q.
  change (inject_Z (10 ^ Z.of_nat 0)) with 1%Q.
  change (inject_Z 0) with 0%Q.
  destruct neg.
  - rewrite inject_Z_opp. field.
  - field.
Qed.

Lemma parseFloat_numberToString_integer (z : Z) :
  parseFloat (numberToString (Num (inject_Z z))) = Num (inject_Z z).
Proof.
  unfold numberToString.
  change (Qnum (inject_Z z)) with z. change (Z.pos (Qden (inject_Z z))) with 1.
  rewrite Z.mod_1_r, Z.div_1_r. cbn [fractionDigits Z.eqb]. rewrite app_nil_r.
  unfold parseFloat. destruct (z <? 0) eqn:Ez.
  - apply Z.ltb_lt in Ez.
    change (trimStart ([45%N] ++ natToString (Z.abs z)))
      with (45%N :: natToString (Z.abs z)).
    change (takeSign (45%N :: natToString (Z.abs z)))
      with (true, natToString (Z.abs z)).
    cbv beta iota.
    rewrite (readDecimal_natToString (Z.abs z) true) by lia.
    replace (- Z.abs z) with z by lia. reflexivity.
  - apply Z.ltb_ge in Ez. replace (Z.abs z) with z by lia. cbn [app].
    destruct (natToString_spec z Ez) as [Hne [Hd _]].
    pose proof (readDecimal_natToString z false Ez) as Hg.
    destruct (natToString z) as [|c0 tl] eqn:En; [congruence|].
    pose proof (Forall_inv Hd) as Hc0. cbv beta in Hc0.
    destruct (isDigit_facts _ Hc0) as [Hw [_ [_ [_ [Hm [Hp _]]]]]].
    cbn [trimStart]. rewrite Hw. unfold takeSign. rewrite Hm, Hp.
    exact Hg.
Qed.

(** ** Scanning an exported row *)

Lemma collapseQuotes_no_quote (s : str) :
  ~ In dquote s -> collapseQuotes s = s.
Proof.
  induction s as [|c tl IH]; intros H; [reflexivity|].
  cbn [collapseQuotes]. destruct tl as [|d tl']; [reflexivity|].
  assert (Hc : ceq c dquote = false).
  { apply ceq_neq. intros E. apply H. left. exact E. }
  rewrite Hc. cbn [andb]. f_equal. apply IH.
  intros Hin. apply H. right. exact Hin.
Qed.




(** One turn of the scanning loop. *)
Lemma scanLine_cons (prev : option char) (c : char) (tl : str)
    (fields : list str) (current : str) (inQuotes : bool) :
  scanLine prev (c :: tl) fields current inQuotes
  = if ceq c dquote && match prev with None => true | Some p => ceq p comma end
    then scanLine (Some c) tl fields current true
    else if ceq c dquote && inQuotes && (isEmpty tl || nextIs comma tl)
    then scanLine (Some c) tl fields current false
    else if ceq c comma && negb inQuotes
    then scanLine (Some c) tl (fields ++ [collapseQuotes current]) [] inQuotes
    else if negb (ceq c dquote && inQuotes && nextIs dquote tl)
    then scanLine (Some c) tl fields (current ++ [c]) inQuotes
    else match tl with
         | d :: tl' => scanLine (Some d) tl' fields (current ++ [c]) inQuotes
         | [] => fields ++ [collapseQuotes (current ++ [c])]
         end.
Proof. reflexivity. Qed.

Lemma scanLine_nil (prev : option char) (fields : list str) (current : str)
    (inQuotes : bool) :
  scanLine prev [] fields current inQuotes = fields ++ [collapseQuotes current].
Proof. reflexivity. Qed.











(** ** Lines of an exported document *)















(** ** The round trip *)










Example round_trip_sample :
  exportToCSV Rev3 exportedJournal
  = Some (CSV_HEADER ++ [newline]
          ++ lit "1,2024-01-01,Scalp: W,1.5:1,100,+EV,A," ++ [dquote]
          ++ lit "clean, fast" ++ [dquote] ++ [newline]
          ++ lit "2,2024-01-02,Swing: PB,2:1,-50.5,-EV,B," ++ [dquote]
          ++ lit "said " ++ [dquote; dquote] ++ lit "go" ++ [dquote; dquote]
          ++ lit ", then left" ++ [dquote] ++ [newline]
          ++ lit "3,2024-01-03,Scalp: T,1:1,0,N/A,C," ++ [newline]).
Proof. vm_compute. reflexivity. Qed.


(** A note of two lines is exported in quotes, but the import cuts the
    document at every line break: the record comes back with the first line
    of its note and the second line is counted as a skipped row. *)
Example line_break_in_note_is_cut :
  exists text,
    exportToCSV Rev1 twoLineNoteJournal = Some text
    /\ processCSVData initial text
       = ({| trades := [ {| id := Id 1; date := lit "2024-01-01";
                            tradeSetup := lit "Scalp: W"; ticker := None;
                            rr := lit "1:1"; pnl := Num 100;
                            activeMgmt := lit "+EV"; execution := lit "A";
                            note := lit "first" |} ];
             nextId := 2; editId := None |}, Imported 1 1).
Proof. eexists. split; vm_compute; reflexivity. Qed.

(** * Further properties of the code *)

(** ** Identifiers stay unique *)











(** ** The form path *)

Lemma dropDigits_split (s : str) :
  exists ds, s = ds ++ dropDigits s /\ Forall (fun c => isDigit c = true) ds.
Proof.
  induction s as [|c tl [ds [E Hd]]]; cbn [dropDigits].
  - exists []. split; [reflexivity | constructor].
  - destruct (isDigit c) eqn:Ec.
    + exists (c :: ds). split; [cbn [app]; f_equal; exact E|].
      constructor; assumption.
    + exists []. split; [reflexivity | constructor].
Qed.

Lemma dropDigits_head (s : str) (c : char) (r : str) :
  dropDigits s = c :: r -> isDigit c = false.
Proof.
  induction s as [|x tl IH]; cbn [dropDigits]; [discriminate|].
  destruct (isDigit x) eqn:Ex; [exact IH|].
  intros H. inversion H. subst. exact Ex.
Qed.

Lemma dropDigits_app (ds rest : str) :
  Forall (fun c => isDigit c = true) ds ->
  (forall c r, rest = c :: r -> isDigit c = false) ->
  dropDigits (ds ++ rest) = rest.
Proof.
  intros Hd Hr. induction Hd as [|c ds Hc _ IH]; cbn [app dropDigits].
  - destruct rest as [|c r]; [reflexivity|].
    cbn [dropDigits]. rewrite (Hr c r eq_refl). reflexivity.
  - rewrite Hc. exact IH.
Qed.

(** A text that starts with a digit is a digit run followed by what
    [dropDigits] leaves. *)
Lemma digitRun_prefix (c : char) (tl : str) :
  isDigit c = true ->
  exists ds, digitRun ds /\ c :: tl = ds ++ dropDigits (c :: tl).
Proof.
  intros Hc. destruct (dropDigits_split (c :: tl)) as [ds [E Hd]].
  exists ds. split; [|exact E]. split; [|exact Hd].
  intros ->. cbn [app] in E. symmetry in E.
  apply dropDigits_head in E. congruence.
Qed.

Lemma rrPattern_iff_rrText (s : str) : rrPattern s = true <-> rrText s.
Proof.
  split.
  - destruct s as [|c tl]; [discriminate|]. unfold rrPattern.
    intros H. apply andb_true_iff in H. destruct H as [Hc H].
    destruct (digitRun_prefix c tl Hc) as [a [Ha Ea]].
    exists a. split; [exact Ha|].
    apply orb_true_iff in H. destruct H as [H|H].
    + apply str_eqb_eq in H. left. rewrite Ea, H. reflexivity.
    + right. destruct (dropDigits (c :: tl)) as [|p [|d r2]] eqn:Er;
        try discriminate.
      apply andb_true_iff in H. destruct H as [H H3].
      apply andb_true_iff in H. destruct H as [H1 H2].
      apply ceq_eq in H1. apply str_eqb_eq in H3. subst p.
      destruct (digitRun_prefix d r2 H2) as [b [Hb Eb]].
      exists b. split; [exact Hb|].
      rewrite Ea. f_equal. cbn [app]. f_equal. rewrite Eb, H3. reflexivity.
  - intros [a [[Ha1 Ha2] [E|[b [[Hb1 Hb2] E]]]]]; subst s;
      destruct a as [|c a']; try congruence.
    + unfold rrPattern. cbn [app].
      rewrite (Forall_inv Ha2). cbn [andb].
      change (c :: a' ++ lit ":1") with ((c :: a') ++ lit ":1").
      rewrite dropDigits_app; [reflexivity | exact Ha2|].
      intros x r E. inversion E. reflexivity.
    + unfold rrPattern. cbn [app].
      rewrite (Forall_inv Ha2). cbn [andb].
      change (c :: a' ++ 46%N :: b ++ lit ":1")
        with ((c :: a') ++ 46%N :: b ++ lit ":1").
      rewrite dropDigits_app; [|exact Ha2|intros x r E; inversion E; reflexivity].
      destruct b as [|d b']; [congruence|]. cbn [app].
      rewrite (Forall_inv Hb2).
      change (d :: b' ++ lit ":1") with ((d :: b') ++ lit ":1").
      rewrite dropDigits_app; [|exact Hb2|intros x r E; inversion E; reflexivity].
      reflexivity.
Qed.

(** X5. The R:R pattern accepts exactly the texts made of a run of digits,
    optionally a point and another run of digits, and the ending colon and
    one. *)
Theorem rrPattern_accepts_ratio_texts (s : str) :
  rrPattern s = true <-> rrText s.
Proof. apply rrPattern_iff_rrText. Qed.

Lemma validateFormData_None (rev : revision) (fd : form) :
  validateFormData rev fd = None ->
  f_tradeSetup fd <> [] /\ f_rr fd <> [] /\ f_pnl fd <> []
  /\ f_activeMgmt fd <> [] /\ f_execution fd <> []
  /\ (hasTicker rev = true -> f_ticker fd <> [])
  /\ isNaN (parseFloat (f_pnl fd)) = false.
Proof.
  unfold validateFormData, requiredFields.
  destruct (isNaN (parseFloat (f_pnl fd))) eqn:En;
    destruct rev; cbn [hasTicker find formField];
    destruct (f_tradeSetup fd); cbn [isEmpty]; try discriminate;
    destruct (f_ticker fd); cbn [isEmpty]; try discriminate;
    destruct (f_rr fd); cbn [isEmpty]; try discriminate;
    destruct (f_pnl fd); cbn [isEmpty]; try discriminate;
    destruct (f_activeMgmt fd); cbn [isEmpty]; try discriminate;
    destruct (f_execution fd); cbn [isEmpty]; try discriminate;
    intros _; repeat split; discriminate.
Qed.

Lemma validateRRInput_rrText (rawRr : str) :
  validateRRInput rawRr = true -> trim rawRr <> [] -> rrText (trim rawRr).
Proof.
  unfold validateRRInput. intros H Hne.
  apply rrPattern_iff_rrText.
  destruct (trim rawRr); [congruence | exact H].
Qed.

(** The trade the form data describe, under a given identifier and date. *)
Lemma formTrade_valid (rev : revision) (raw : form) (i : ident) (d : str) :
  validateRRInput (f_rr raw) = true ->
  validateFormData rev (getFormData rev raw) = None ->
  formValid rev
    {| id := i; date := d;
       tradeSetup := f_tradeSetup (getFormData rev raw);
       ticker := if hasTicker rev then Some (f_ticker (getFormData rev raw))
                 else None;
       rr := f_rr (getFormData rev raw);
       pnl := parseFloat (f_pnl (getFormData rev raw));
       activeMgmt := f_activeMgmt (getFormData rev raw);
       execution := f_execution (getFormData rev raw);
       note := f_note (getFormData rev raw) |}.
Proof.
  intros Hrr Hval.
  destruct (validateFormData_None _ _ Hval) as [H1 [H2 [_ [H4 [H5 [H6 H7]]]]]].
  unfold formValid. cbn [tradeSetup rr pnl activeMgmt execution note ticker].
  split; [exact H1|].
  split; [apply validateRRInput_rrText; [exact Hrr | exact H2]|].
  split; [exact H7|]. split; [exact H4|]. split; [exact H5|].
  split; [apply trim_trimmed|]. split; [apply trim_trimmed|].
  intros Ht. rewrite Ht. eexists. split; [reflexivity|].
  split; [exact (H6 Ht)|].
  cbn [getFormData f_ticker]. rewrite Ht. apply trim_trimmed.
Qed.



(** X3. Unless [addTrade] reports a trade as added or updated, it returns
    the journal exactly as it was: a rejected R:R text, a missing field, a
    PnL that is not a number or an edited trade that no longer exists
    change neither the collection nor the counter nor the edit mode. *)
Theorem addTrade_rejection_changes_nothing (rev : revision) (st : journal)
    (raw : form) (today : str) :
  isStored (snd (addTrade rev st raw today)) = false ->
  fst (addTrade rev st raw today) = st
  /\ snd (addTrade rev st raw today) <> None.
Proof.
  unfold addTrade.
  destruct (negb (validateRRInput (f_rr raw))); [intros _; split; [reflexivity|discriminate]|].
  destruct (validateFormData rev (getFormData rev raw));
    [intros _; split; [reflexivity|discriminate]|].
  destruct (if hasTicker rev then editId st else None) as [eid|].
  - destruct (findIndex eid (trades st));
      [cbn [snd isStored]; discriminate
      | intros _; split; [reflexivity|discriminate]].
  - cbn [snd isStored]. discriminate.
Qed.

Lemma addTrade_rejection_changes_nothing_witness :
  fst (addTrade Rev2 editingJournal badRrForm (lit "2024-05-05")) = editingJournal
  /\ snd (addTrade Rev2 editingJournal badRrForm (lit "2024-05-05")) <> None.
Proof.
  apply (addTrade_rejection_changes_nothing Rev2 editingJournal badRrForm
           (lit "2024-05-05")).
  vm_compute. reflexivity.
Defined.

Lemma validateFormData_error (rev : revision) (fd : form) (e : status) :
  validateFormData rev fd = Some e -> isStored (Some e) = false.
Proof.
  unfold validateFormData.
  destruct (find (fun f => isEmpty (formField fd f)) (requiredFields rev)).
  - intros H. inversion H. reflexivity.
  - destruct (isNaN (parseFloat (f_pnl fd))); [|discriminate].
    intros H. inversion H. reflexivity.
Qed.

(** X4. A trade that [addTrade] reports as added or updated is in the new
    collection and has passed the form validation: its setup, active
    management and execution are not empty, its R:R text is a ratio text
    without white space around it, its PnL is not [NaN], its note is
    trimmed, and from the second revision on it has a non-empty trimmed
    ticker.  Every other trade of the new collection was there before. *)
Theorem stored_trade_is_valid (rev : revision) (st : journal) (raw : form)
    (today : str) :
  isStored (snd (addTrade rev st raw today)) = true ->
  exists t,
    In t (trades (fst (addTrade rev st raw today)))
    /\ formValid rev t
    /\ (forall x, In x (trades (fst (addTrade rev st raw today))) ->
                  x = t \/ In x (trades st)).
Proof.
  unfold addTrade.
  destruct (validateRRInput (f_rr raw)) eqn:Hrr; cbn [negb];
    [|cbn [snd isStored]; discriminate].
  destruct (validateFormData rev (getFormData rev raw)) as [e|] eqn:Hval.
  { cbn [snd]. rewrite (validateFormData_error _ _ _ Hval). discriminate. }
  destruct (if hasTicker rev then editId st else None) as [eid|].
  - destruct (findIndex eid (trades st)) as [k|] eqn:Ef;
      [|cbn [snd isStored]; discriminate].
    intros _. destruct (findIndex_Some _ _ _ Ef) as [old [Hold _]].
    cbn [fst trades]. eexists. split; [|split].
    + eapply nth_error_In. eapply setAt_same. exact Hold.
    + apply formTrade_valid; assumption.
    + intros x Hx. apply setAt_In in Hx. exact Hx.
  - intros _. cbn [fst trades]. eexists. split; [|split].
    + apply in_or_app. right. left. reflexivity.
    + apply formTrade_valid; assumption.
    + intros x Hx. apply in_app_or in Hx.
      destruct Hx as [Hx|[<-|[]]]; [right; exact Hx | left; reflexivity].
Qed.

Lemma stored_trade_is_valid_witness :
  exists t,
    In t (trades (fst (addTrade Rev3 editingJournal editForm (lit "2024-02-02"))))
    /\ formValid Rev3 t
    /\ (forall x, In x (trades (fst (addTrade Rev3 editingJournal editForm
                                       (lit "2024-02-02")))) ->
                  x = t \/ In x (trades editingJournal)).
Proof.
  apply (stored_trade_is_valid Rev3 editingJournal editForm (lit "2024-02-02")).
  vm_compute. reflexivity.
Defined.

(** ** Deleting a trade and the edit mode *)

Lemma findIndex_split (i : ident) (ts : list trade) (k : nat) :
  findIndex i ts = Some k ->
  exists a x b,
    ts = a ++ x :: b /\ idEq (id x) i = true
    /\ (forall y, In y a -> idEq (id y) i = false)
    /\ removeAt k ts = a ++ b.
Proof.
  revert k. induction ts as [|t tl IH]; intros k; cbn [findIndex];
    [discriminate|].
  destruct (idEq (id t) i) eqn:E.
  - intros H. inversion H. subst. exists [], t, tl.
    repeat split; try reflexivity; [exact E | intros y []].
  - destruct (findIndex i tl) as [k'|]; cbn [option_map]; [|discriminate].
    intros H. inversion H. subst.
    destruct (IH k' eq_refl) as [a [x [b [E1 [E2 [E3 E4]]]]]].
    exists (t :: a), x, b. cbn [app removeAt]. rewrite <- E1, E4.
    repeat split; try reflexivity; [exact E2|].
    intros y [<-|Hy]; [exact E | exact (E3 y Hy)].
Qed.

(** X6. A confirmed [deleteTrade] of an identifier that some trade carries
    removes the first such trade and nothing else: the trades before and
    after it stay in their order, and the counter and the edit mode are
    unchanged.  Without the confirmation the journal is returned as it
    is. *)
Theorem deleteTrade_removes_first_match (st : journal) (i : ident) :
  (exists x, In x (trades st) /\ idEq (id x) i = true) ->
  exists a x b,
    trades st = a ++ x :: b
    /\ idEq (id x) i = true
    /\ (forall y, In y a -> idEq (id y) i = false)
    /\ deleteTrade st i true
       = ({| trades := a ++ b; nextId := nextId st; editId := editId st |},
          Some (TradeDeleted i))
    /\ deleteTrade st i false = (st, None).
Proof.
  intros [x0 [Hin Hx0]]. unfold deleteTrade.
  destruct (findIndex i (trades st)) as [k|] eqn:Ef.
  - destruct (findIndex_split _ _ _ Ef) as [a [x [b [E1 [E2 [E3 E4]]]]]].
    exists a, x, b. rewrite E4. repeat split; assumption.
  - rewrite (proj1 (findIndex_None _ _) Ef x0 Hin) in Hx0. discriminate.
Qed.

Lemma deleteTrade_removes_first_match_witness :
  exists a x b,
    trades editingJournal = a ++ x :: b
    /\ idEq (id x) (Id 7) = true
    /\ (forall y, In y a -> idEq (id y) (Id 7) = false)
    /\ deleteTrade editingJournal (Id 7) true
       = ({| trades := a ++ b; nextId := 8; editId := Some (Id 1) |},
          Some (TradeDeleted (Id 7)))
    /\ deleteTrade editingJournal (Id 7) false = (editingJournal, None).
Proof.
  apply (deleteTrade_removes_first_match editingJournal (Id 7)).
  exists spacedTrade. split; [right; left; reflexivity | reflexivity].
Defined.

(** X7. [deleteTrade] of an identifier that no trade carries (a [NaN]
    among them: it equals nothing) reports that the trade was not found and
    returns the journal as it is, whatever the answer to the confirmation
    would be. *)
Theorem deleteTrade_unknown_id_changes_nothing (st : journal) (i : ident)
    (confirmed : bool) :
  (forall x, In x (trades st) -> idEq (id x) i = false) ->
  deleteTrade st i confirmed = (st, Some DeleteNotFound).
Proof.
  intros H. apply findIndex_None in H. unfold deleteTrade. rewrite H.
  reflexivity.
Qed.

Lemma deleteTrade_unknown_id_changes_nothing_witness :
  deleteTrade editingJournal IdNaN true = (editingJournal, Some DeleteNotFound).
Proof.
  apply (deleteTrade_unknown_id_changes_nothing editingJournal IdNaN true).
  intros x _. destruct (id x); reflexivity.
Defined.





(** ** The import loop *)

Lemma mergeTrade_grows (st : journal) (t : trade) :
  exists t', trades (mergeTrade st t) = trades st ++ [t']
             /\ nextId st <= nextId (mergeTrade st t)
             /\ editId (mergeTrade st t) = editId st.
Proof.
  unfold mergeTrade. cbn [trades nextId editId].
  eexists. split; [reflexivity|]. split; [|reflexivity].
  destruct (existsb (fun x => idEq (id x) (id t)) (trades st)).
  - cbn [withId id]. destruct (nextId st + 1 <=? nextId st); lia.
  - destruct (id t) as [|z]; [lia|].
    destruct (nextId st <=? z) eqn:E; [apply Z.leb_le in E|]; lia.
Qed.

Lemma importLines_grow (lines : list str) (r : importRun) :
  exists added,
    trades (runJournal (fold_left importLine lines r))
    = trades (runJournal r) ++ added
    /\ importedCount (fold_left importLine lines r)
       = (importedCount r + length added)%nat
    /\ nextId (runJournal r) <= nextId (runJournal (fold_left importLine lines r))
    /\ editId (runJournal (fold_left importLine lines r)) = editId (runJournal r).
Proof.
  revert r. induction lines as [|l ls IH]; intros r; cbn [fold_left].
  - exists []. rewrite app_nil_r, Nat.add_0_r. repeat split; lia.
  - destruct (IH (importLine r l)) as [added [H1 [H2 [H3 H4]]]].
    unfold importLine in *. destruct (isEmpty (trim l)).
    + exists added. repeat split; assumption.
    + destruct (parseCSVLine l) as [t|].
      * cbn [runJournal importedCount] in *.
        destruct (mergeTrade_grows (runJournal r) t) as [t' [M1 [M2 M3]]].
        exists (t' :: added). rewrite H1, H2, M1, <- app_assoc, H4, M3.
        cbn [app length]. repeat split; lia.
      * cbn [runJournal importedCount] in *.
        exists added. repeat split; assumption.
Qed.

(** X9. An import only appends.  The trades of the journal before the
    import are the first trades of the journal after it, unchanged and in
    their order; the counter does not decrease and the edit mode is kept;
    the number of appended trades is the reported import count, and on the
    empty-file and header errors nothing is appended. *)
Theorem import_only_appends (st : journal) (csvText : str) :
  exists added,
    trades (fst (processCSVData st csvText)) = trades st ++ added
    /\ nextId st <= nextId (fst (processCSVData st csvText))
    /\ editId (fst (processCSVData st csvText)) = editId st
    /\ match snd (processCSVData st csvText) with
       | Imported imported _ => length added = imported
       | _ => added = []
       end.
Proof.
  unfold processCSVData.
  destruct (length (split newline (trim csvText)) <? 2)%nat.
  { exists []. cbn [fst snd]. rewrite app_nil_r. repeat split; lia. }
  destruct (negb (str_eqb (trim (hd [] (split newline (trim csvText)))) CSV_HEADER)).
  { exists []. cbn [fst snd]. rewrite app_nil_r. repeat split; lia. }
  destruct (importLines_grow (tl (split newline (trim csvText))) (startRun st))
    as [added [H1 [H2 [H3 H4]]]].
  exists added. cbn [fst snd]. cbn [startRun runJournal importedCount] in *.
  repeat split; try assumption. rewrite H2. reflexivity.
Qed.

Lemma importLines_count (lines : list str) (r : importRun) :
  (importedCount (fold_left importLine lines r)
   + skippedCount (fold_left importLine lines r))%nat
  = (importedCount r + skippedCount r
     + length (filter (fun l => negb (isEmpty (trim l))) lines))%nat.
Proof.
  revert r. induction lines as [|l ls IH]; intros r; cbn [fold_left filter].
  - cbn [length]. lia.
  - rewrite IH. unfold importLine. destruct (isEmpty (trim l)); cbn [negb].
    + reflexivity.
    + destruct (parseCSVLine l);
        cbn [importedCount skippedCount length]; lia.
Qed.

(** X10. Every data line that is not blank is counted exactly once: the
    imported and the skipped counts of a successful import add up to the
    number of non-blank lines after the header. *)
Theorem import_counts_every_line (st st' : journal) (csvText : str)
    (imported skipped : nat) :
  processCSVData st csvText = (st', Imported imported skipped) ->
  (imported + skipped)%nat = length (nonBlankDataLines csvText).
Proof.
  unfold processCSVData, nonBlankDataLines.
  destruct (length (split newline (trim csvText)) <? 2)%nat; [discriminate|].
  destruct (negb (str_eqb (trim (hd [] (split newline (trim csvText)))) CSV_HEADER));
    [discriminate|].
  intros H. inversion H.
  rewrite importLines_count. reflexivity.
Qed.

Lemma import_counts_every_line_witness :
  (1 + 1)%nat = length (nonBlankDataLines mixedDoc).
Proof.
  apply (import_counts_every_line initial
           {| trades := [ {| id := Id 5; date := lit "2024-01-01";
                             tradeSetup := lit "Scalp: W"; ticker := None;
                             rr := lit "1:1"; pnl := Num 100;
                             activeMgmt := lit "+EV"; execution := lit "A";
                             note := lit "ok" |} ];
              nextId := 6; editId := None |}
           mixedDoc 1 1).
  vm_compute. reflexivity.
Defined.

Lemma scanLine_length_bound (rest : str) :
  forall prev fields current inQuotes,
    (length (scanLine prev rest fields current inQuotes)
     <= S (length fields + commas rest))%nat.
Proof.
  unfold commas.
  induction rest as [|c tl IH1 IH2] using str_ind2;
    intros prev fields current inQuotes.
  - rewrite scanLine_nil, length_app. cbn [length filter]. lia.
  - rewrite scanLine_cons. cbn [filter]. unfold ceq at 6.
    rewrite (N.eqb_sym comma c). fold (ceq c comma).
    repeat match goal with
           | |- context [if ?b then scanLine _ _ _ _ _ else _] =>
               destruct b eqn:?
           end;
      try (etransitivity; [apply IH1|];
           destruct (ceq c comma); cbn [length]; lia).
    + etransitivity; [apply IH1|]. rewrite length_app.
      match goal with H : ceq c comma && _ = true |- _ =>
        apply andb_true_iff in H; destruct H as [H _]; rewrite H end.
      cbn [length]. lia.
    + destruct tl as [|d tl'].
      * rewrite length_app. destruct (ceq c comma); cbn [length filter]; lia.
      * etransitivity; [apply (IH2 d tl' eq_refl)|].
        cbn [filter]. destruct (ceq c comma), (ceq comma d); cbn [length]; lia.
Qed.

Lemma parseCSVLine_Some_length (line : str) (t : trade) :
  parseCSVLine line = Some t ->
  length (scanLine None line [] [] false) = 8%nat.
Proof.
  unfold parseCSVLine.
  destruct (scanLine None line [] [] false)
    as [|f1 [|f2 [|f3 [|f4 [|f5 [|f6 [|f7 [|f8 [|f9 more]]]]]]]]];
    try discriminate. reflexivity.
Qed.

(** X11. A line that is not blank and has fewer than seven commas is never
    imported, whatever its quotes: it is counted as skipped and the journal
    is left as it is. *)
Theorem short_line_is_skipped (r : importRun) (line : str) :
  isEmpty (trim line) = false ->
  (commas line < 7)%nat ->
  importLine r line = skipOne r.
Proof.
  intros Hnb Hc. unfold importLine. rewrite Hnb.
  destruct (parseCSVLine line) as [t|] eqn:Ep; [|reflexivity].
  apply parseCSVLine_Some_length in Ep.
  pose proof (scanLine_length_bound line None [] [] false) as Hb.
  rewrite Ep in Hb. cbn [length] in Hb. lia.
Qed.

Lemma short_line_is_skipped_witness :
  importLine (startRun initial) (lit "6,2024-01-02,Scalp: W")
  = skipOne (startRun initial).
Proof.
  apply (short_line_is_skipped (startRun initial) (lit "6,2024-01-02,Scalp: W")).
  - vm_compute. reflexivity.
  - vm_compute. lia.
Defined.

(** ** Lines without quotes *)

Lemma scanLine_unquoted (rest : str) :
  forall prev fields current,
    ~ In dquote rest -> ~ In dquote current ->
    scanLine prev rest fields current false
    = fields ++ match split comma rest with
                | h :: more => (current ++ h) :: more
                | [] => [current]
                end.
Proof.
  induction rest as [|c tl IH]; intros prev fields current Hr Hc.
  - rewrite scanLine_nil. cbn [split]. rewrite app_nil_r.
    rewrite collapseQuotes_no_quote by exact Hc. reflexivity.
  - assert (Hq : ceq c dquote = false).
    { apply ceq_neq. intros E. apply Hr. left. exact E. }
    assert (Htl : ~ In dquote tl) by (intros E; apply Hr; right; exact E).
    rewrite scanLine_cons. rewrite Hq. cbn [andb negb split].
    destruct (ceq c comma) eqn:Ec; cbn [andb negb].
    + rewrite IH; [|exact Htl|intros []].
      rewrite collapseQuotes_no_quote by exact Hc.
      rewrite <- app_assoc, app_nil_r. cbn [app].
      destruct (split comma tl) eqn:Es;
        [exfalso; eapply split_nonempty; exact Es | reflexivity].
    + rewrite IH; [|exact Htl|].
      * destruct (split comma tl) eqn:Es;
          [exfalso; eapply split_nonempty; exact Es|].
        rewrite <- app_assoc. reflexivity.
      * intros Hin. apply in_app_or in Hin.
        destruct Hin as [Hin|[Hin|[]]]; [exact (Hc Hin)|].
        apply ceq_neq in Hq. congruence.
Qed.

(** X12. On a line without double quotes the scanning parser is the plain
    split at commas: the fields are the texts between the commas, empty
    fields included. *)
Theorem unquoted_line_is_split_at_commas (line : str) :
  ~ In dquote line ->
  scanLine None line [] [] false = split comma line.
Proof.
  intros H. rewrite scanLine_unquoted; [|exact H|intros []].
  cbn [app]. destruct (split comma line) eqn:Es;
    [exfalso; eapply split_nonempty; exact Es | reflexivity].
Qed.

Lemma unquoted_line_is_split_at_commas_witness :
  scanLine None (lit "a,,b c,") [] [] false
  = [lit "a"; lit ""; lit "b c"; lit ""].
Proof.
  rewrite (unquoted_line_is_split_at_commas (lit "a,,b c,")).
  - vm_compute. reflexivity.
  - apply includes_false. vm_compute. reflexivity.
Defined.

Lemma isWhiteSpace_facts (w : char) :
  isWhiteSpace w = true -> w <> comma /\ w <> dquote.
Proof.
  intros H. split; intros E; subst w; discriminate H.
Qed.

Lemma trimStart_snoc_ws (s : str) (w : char) :
  isWhiteSpace w = true ->
  trimStart (s ++ [w]) = match trimStart s with
                         | [] => []
                         | u => u ++ [w]
                         end.
Proof.
  intros Hw. induction s as [|c tl IH]; cbn [app trimStart].
  - rewrite Hw. reflexivity.
  - destruct (isWhiteSpace c); [exact IH | reflexivity].
Qed.

Lemma trim_snoc_ws (s : str) (w : char) :
  isWhiteSpace w = true -> trim (s ++ [w]) = trim s.
Proof.
  intros Hw. unfold trim. rewrite (trimStart_snoc_ws s w Hw).
  destruct (trimStart s) as [|c u]; [reflexivity|].
  unfold trimEnd. rewrite rev_app_distr. cbn [rev app trimStart].
  rewrite Hw. reflexivity.
Qed.

Lemma split_snoc (sep c : char) (s : str) :
  c <> sep ->
  exists init last,
    split sep s = init ++ [last]
    /\ split sep (s ++ [c]) = init ++ [last ++ [c]].
Proof.
  intros Hc. induction s as [|x tl [init [last [E1 E2]]]].
  - exists [], []. cbn [app split]. apply ceq_neq in Hc. rewrite Hc.
    split; reflexivity.
  - cbn [app split]. destruct (ceq x sep).
    + exists ([] :: init), last. rewrite E1, E2. split; reflexivity.
    + rewrite E1, E2. destruct init as [|h init'].
      * exists [], (x :: last). split; reflexivity.
      * exists ((x :: h) :: init'), last. split; reflexivity.
Qed.

Lemma parseCSVLine_trailing_ws (line : str) (w : char) :
  ~ In dquote line -> isWhiteSpace w = true ->
  parseCSVLine (line ++ [w]) = parseCSVLine line.
Proof.
  intros Hq Hw. destruct (isWhiteSpace_facts w Hw) as [Hwc Hwq].
  unfold parseCSVLine.
  rewrite !scanLine_unquoted; try (intros []); try exact Hq.
  2:{ intros Hin. apply in_app_or in Hin.
      destruct Hin as [Hin|[Hin|[]]]; [exact (Hq Hin) | congruence]. }
  destruct (split_snoc comma w line Hwc) as [init [last [E1 E2]]].
  rewrite E1, E2.
  destruct init as [|f1 [|f2 [|f3 [|f4 [|f5 [|f6 [|f7 [|f8 more]]]]]]]];
    cbn [app]; try reflexivity.
  - rewrite (trim_snoc_ws last w Hw). reflexivity.
  - destruct more; reflexivity.
Qed.

(** X13. White space at the end of an unquoted line does not matter: a
    line without double quotes followed by a carriage return (or any other
    white-space character) is imported, skipped or ignored exactly as the
    line itself, with the same decoded trade. *)
Theorem trailing_white_space_is_ignored (r : importRun) (line : str) (w : char) :
  ~ In dquote line -> isWhiteSpace w = true ->
  importLine r (line ++ [w]) = importLine r line.
Proof.
  intros Hq Hw. unfold importLine.
  rewrite (trim_snoc_ws line w Hw), (parseCSVLine_trailing_ws line w Hq Hw).
  reflexivity.
Qed.

Lemma trailing_white_space_is_ignored_witness :
  importLine (startRun initial)
    (lit "5,2024-01-01,Scalp: W,1:1,100,+EV,A,ok" ++ [13%N])
  = importLine (startRun initial) (lit "5,2024-01-01,Scalp: W,1:1,100,+EV,A,ok").
Proof.
  apply (trailing_white_space_is_ignored (startRun initial)
           (lit "5,2024-01-01,Scalp: W,1:1,100,+EV,A,ok") 13%N).
  - apply includes_false. vm_compute. reflexivity.
  - reflexivity.
Defined.

(** ** The field encoder *)

Lemma doubleQuotes_injective (a b : str) :
  doubleQuotes a = doubleQuotes b -> a = b.
Proof.
  revert b. induction a as [|c a IH]; intros [|d b]; cbn [doubleQuotes].
  - reflexivity.
  - destruct (ceq d dquote); discriminate.
  - destruct (ceq c dquote); discriminate.
  - destruct (ceq c dquote) eqn:Ec, (ceq d dquote) eqn:Ed; intros H.
    + apply ceq_eq in Ec, Ed. subst. inversion H as [H1]. f_equal. exact (IH _ H1).
    + inversion H as [[H1 H2]]. subst d. rewrite ceq_refl in Ed. discriminate.
    + inversion H as [[H1 H2]]. subst c. rewrite ceq_refl in Ec. discriminate.
    + inversion H as [[H1 H2]]. f_equal. exact (IH _ H2).
Qed.

Lemma escapeCSVField_inj (a b : str) :
  escapeCSVField a = escapeCSVField b -> a = b.
Proof.
  unfold escapeCSVField.
  destruct (includes comma a || includes newline a || includes dquote a) eqn:Ea;
    destruct (includes comma b || includes newline b || includes dquote b) eqn:Eb;
    intros H.
  - cbn [app] in H. inversion H as [H1].
    apply app_inj_tail in H1. destruct H1 as [H1 _].
    exact (doubleQuotes_injective _ _ H1).
  - apply orb_false_iff in Eb. destruct Eb as [_ Eb].
    rewrite <- H in Eb. cbn [app includes existsb] in Eb.
    rewrite ceq_refl in Eb. discriminate Eb.
  - apply orb_false_iff in Ea. destruct Ea as [_ Ea].
    rewrite H in Ea. cbn [app includes existsb] in Ea.
    rewrite ceq_refl in Ea. discriminate Ea.
  - exact H.
Qed.

(** X14. The field encoding is unambiguous: two different texts never have
    the same escaped form. *)
Theorem escapeCSVField_distinguishes (a b : str) :
  a <> b -> escapeCSVField a <> escapeCSVField b.
Proof. intros Hne H. apply Hne. exact (escapeCSVField_inj a b H). Qed.

Lemma escapeCSVField_distinguishes_witness :
  escapeCSVField ([dquote] ++ lit "x,y" ++ [dquote]) <> escapeCSVField (lit "x,y").
Proof.
  apply (escapeCSVField_distinguishes ([dquote] ++ lit "x,y" ++ [dquote])
           (lit "x,y")).
  discriminate.
Defined.




(** ** Bounds of the statistics *)

Lemma total_wins (xs : list number) :
  Forall (fun x => ngt0 x = true) xs ->
  total xs = PInf \/ (exists s, total xs = Num s /\ (0 <= s)%Q).
Proof.
  induction 1 as [|x xs Hx _ IH]; cbn [total fold_right].
  - right. exists 0%Q. split; [reflexivity | lra].
  - fold (total xs). destruct x as [| | |q]; cbn [ngt0] in Hx; try discriminate.
    + left. destruct IH as [->|[s [-> _]]]; reflexivity.
    + destruct (Qlt_le_dec 0 q) as [Hq|Hq]; [|discriminate].
      destruct IH as [->|[s [-> Hs]]]; [left; reflexivity|].
      right. cbn [nadd]. eexists. split; [reflexivity|].
      rewrite Qred_correct. lra.
Qed.

Lemma ndivLen_nonneg (x : number) (n : nat) :
  (0 < n)%nat ->
  x = PInf \/ (exists s, x = Num s /\ (0 <= s)%Q) ->
  nlt0 (ndivLen x n) = false.
Proof.
  intros Hn [->|[s [-> Hs]]]; [reflexivity|].
  cbn [ndivLen nlt0].
  destruct (Qlt_le_dec (Qred (s / inject_Z (Z.of_nat n))) 0) as [H|H];
    [|reflexivity].
  rewrite Qred_correct in H.
  assert (Hq : (0 < inject_Z (Z.of_nat n))%Q) by (rewrite <- (Zlt_Qlt 0); lia).
  assert (Hd : (0 <= s / inject_Z (Z.of_nat n))%Q).
  { unfold Qdiv. apply Qmult_le_0_compat; [exact Hs|].
    apply Qlt_le_weak, Qinv_lt_0_compat. exact Hq. }
  lra.
Qed.

Lemma nabs_nonneg (x : number) : nlt0 (nabs x) = false.
Proof.
  destruct x as [| | |q]; try reflexivity. cbn [nabs nlt0].
  destruct (Qlt_le_dec (Qred (Qabs q)) 0) as [H|H]; [|reflexivity].
  rewrite Qred_correct in H. pose proof (Qabs_nonneg q). lra.
Qed.

Lemma nearestPercent_bounds (w n : nat) (r : Z) :
  (0 < n)%nat -> (w <= n)%nat -> nearestPercent w n r ->
  0 <= r <= 100 /\ (w = n -> r = 100) /\ (w = O -> r = 0).
Proof.
  unfold nearestPercent. intros Hn Hw [H1 H2].
  assert (Hr : 0 <= r <= 100) by (split; nia).
  split; [exact Hr|]. split; intros ->; nia.
Qed.

(** X16. The statistics of any list of trades stay in range: the win rate
    is an integer from 0 to 100, it is 100 when every trade has a PnL above
    zero and 0 when none has, and neither the average win nor the average
    loss is ever negative. *)
Theorem statistics_stay_in_range (v : list trade) :
  0 <= winRate (calculateStatsForTrades v) <= 100
  /\ (v <> [] -> Forall (fun t => ngt0 (pnl t) = true) v ->
      winRate (calculateStatsForTrades v) = 100)
  /\ (Forall (fun t => ngt0 (pnl t) = false) v ->
      winRate (calculateStatsForTrades v) = 0)
  /\ nlt0 (avgWin (calculateStatsForTrades v)) = false
  /\ nlt0 (avgLoss (calculateStatsForTrades v)) = false.
Proof.
  destruct v as [|t tl] eqn:Ev.
  - cbn. repeat split; try lia; try reflexivity. intros H. congruence.
  - rewrite <- Ev.
    assert (Hlen : (0 < length v)%nat) by (rewrite Ev; cbn; lia).
    assert (Hw : (length (filter (fun t => ngt0 (pnl t)) v) <= length v)%nat)
      by apply filter_length_le.
    pose proof (winRate_nearest (length (filter (fun t => ngt0 (pnl t)) v))
                  (length v) Hlen) as Hnear.
    destruct (nearestPercent_bounds _ _ _ Hlen Hw Hnear) as [Hb [Hall Hnone]].
    replace (calculateStatsForTrades v) with
      {| totalPnl := sumPnl v;
         totalTrades := length v;
         winRate :=
           mathRound (inject_Z (Z.of_nat (length (filter (fun t => ngt0 (pnl t)) v)))
                      / inject_Z (Z.of_nat (length v)) * 100)%Q;
         avgWin :=
           if (0 <? length (filter (fun t => ngt0 (pnl t)) v))%nat
           then ndivLen (sumPnl (filter (fun t => ngt0 (pnl t)) v))
                        (length (filter (fun t => ngt0 (pnl t)) v))
           else nzero;
         avgLoss :=
           if (0 <? length (filter (fun t => nlt0 (pnl t)) v))%nat
           then nabs (ndivLen (sumPnl (filter (fun t => nlt0 (pnl t)) v))
                              (length (filter (fun t => nlt0 (pnl t)) v)))
           else nzero |}
      by (rewrite Ev; reflexivity).
    cbn [winRate avgWin avgLoss].
    split; [exact Hb|]. split; [|split; [|split]].
    + intros _ Hf. apply Hall. f_equal.
      apply forallb_filter_id. apply forallb_forall.
      rewrite Forall_forall in Hf. exact Hf.
    + intros Hf. apply Hnone.
      replace (filter (fun t => ngt0 (pnl t)) v) with (@nil trade); [reflexivity|].
      symmetry. clear - Hf. induction Hf as [|x xs Hx _ IH]; cbn [filter];
        [reflexivity|]. rewrite Hx. exact IH.
    + destruct (0 <? length (filter (fun t => ngt0 (pnl t)) v))%nat eqn:E;
        [|reflexivity].
      apply Nat.ltb_lt in E. apply ndivLen_nonneg; [exact E|].
      rewrite sumPnl_total, map_filter_pnl. apply total_wins.
      apply filter_Forall.
    + destruct (0 <? length (filter (fun t => nlt0 (pnl t)) v))%nat;
        [apply nabs_nonneg | reflexivity].
Qed.

Lemma prefixes_disjoint (s : str) :
  startsWith (lit "Scalp:") s && startsWith (lit "Swing:") s = false.
Proof.
  destruct s as [|c1 [|c2 tl]]; try reflexivity.
  - cbn [lit String.list_ascii_of_string map startsWith].
    change (N_of_ascii "S") with 83%N.
    destruct (ceq 83%N c1); reflexivity.
  - cbn [lit String.list_ascii_of_string map startsWith].
    change (N_of_ascii "S") with 83%N. change (N_of_ascii "c") with 99%N.
    change (N_of_ascii "w") with 119%N.
    destruct (ceq 83%N c1); cbn [andb]; [|reflexivity].
    destruct (ceq 99%N c2) eqn:E1; cbn [andb]; [|reflexivity].
    destruct (ceq 119%N c2) eqn:E2; cbn [andb];
      [|apply andb_false_r].
    apply ceq_eq in E1, E2. congruence.
Qed.

Lemma disjoint_filters_length (p q : trade -> bool) (ts : list trade) :
  (forall t, p t && q t = false) ->
  (length (filter p ts) + length (filter q ts) <= length ts)%nat.
Proof.
  intros H. induction ts as [|t tl IH]; cbn [filter length]; [lia|].
  specialize (H t). destruct (p t), (q t); cbn [length] in *;
    try discriminate; lia.
Qed.

Lemma totalTrades_length (v : list trade) :
  totalTrades (calculateStatsForTrades v) = length v.
Proof. destruct v; reflexivity. Qed.

(** X17. No trade is counted both as a scalp and as a swing: the trade
    counts of the scalp and swing views together never exceed the overall
    count. *)
Theorem scalp_and_swing_counts (st : journal) :
  (totalTrades (scalp (calculateStats st))
   + totalTrades (swing (calculateStats st))
   <= totalTrades (overall (calculateStats st)))%nat.
Proof.
  unfold calculateStats. cbn [scalp swing overall].
  rewrite !totalTrades_length. apply disjoint_filters_length.
  intros t. apply prefixes_disjoint.
Qed.

(** ** The stored counter *)



(** ** Importing the own export again *)







(** ** Editing a trade *)

Lemma setAt_map {A : Type} (f : trade -> A) (k : nat) (t old : trade)
    (ts : list trade) :
  nth_error ts k = Some old -> f t = f old ->
  map f (setAt k t ts) = map f ts.
Proof.
  revert k. induction ts as [|x tl IH]; intros [|k] Hn Hf; cbn in *;
    try discriminate.
  - inversion Hn. subst. rewrite Hf. reflexivity.
  - f_equal. apply IH; assumption.
Qed.

(** X20. Opening a trade in the edit form and submitting valid form data
    updates in place: the submission is reported as an update of that
    identifier, the collection keeps its length, every identifier and every
    date stays where it was, the counter is unchanged, and the edit mode is
    left, so that the next valid submission adds a new trade under the
    counter value. *)
Theorem edit_then_submit_updates_in_place (rev : revision) (st : journal)
    (i : ident) (raw : form) (today : str) :
  hasTicker rev = true ->
  (exists x, In x (trades st) /\ idEq (id x) i = true) ->
  validateRRInput (f_rr raw) = true ->
  validateFormData rev (getFormData rev raw) = None ->
  loadTradeForEdit st i
  = ({| trades := trades st; nextId := nextId st; editId := Some i |}, None)
  /\ snd (addTrade rev (fst (loadTradeForEdit st i)) raw today)
     = Some (TradeUpdated i)
  /\ map id (trades (fst (addTrade rev (fst (loadTradeForEdit st i)) raw today)))
     = map id (trades st)
  /\ map date (trades (fst (addTrade rev (fst (loadTradeForEdit st i)) raw today)))
     = map date (trades st)
  /\ nextId (fst (addTrade rev (fst (loadTradeForEdit st i)) raw today))
     = nextId st
  /\ editId (fst (addTrade rev (fst (loadTradeForEdit st i)) raw today)) = None
  /\ snd (addTrade rev
            (fst (addTrade rev (fst (loadTradeForEdit st i)) raw today))
            raw today)
     = Some (TradeAdded (nextId st)).
Proof.
  intros Hrev Hex Hrr Hval.
  assert (Hload : loadTradeForEdit st i
                  = ({| trades := trades st; nextId := nextId st;
                        editId := Some i |}, None)).
  { unfold loadTradeForEdit. apply existsb_idEq_true in Hex. rewrite Hex.
    reflexivity. }
  rewrite Hload. cbn [fst]. split; [reflexivity|].
  destruct (findIndex i (trades st)) as [k|] eqn:Ef.
  2:{ destruct Hex as [x [Hx Hxe]].
      rewrite (proj1 (findIndex_None _ _) Ef x Hx) in Hxe. discriminate. }
  destruct (findIndex_Some _ _ _ Ef) as [old [Hold Hid]].
  apply idEq_true in Hid.
  assert (Hadd : addTrade rev {| trades := trades st; nextId := nextId st;
                                 editId := Some i |} raw today
                 = ({| trades :=
                         setAt k
                           {| id := i; date := date old;
                              tradeSetup := f_tradeSetup (getFormData rev raw);
                              ticker := Some (f_ticker (getFormData rev raw));
                              rr := f_rr (getFormData rev raw);
                              pnl := parseFloat (f_pnl (getFormData rev raw));
                              activeMgmt := f_activeMgmt (getFormData rev raw);
                              execution := f_execution (getFormData rev raw);
                              note := f_note (getFormData rev raw) |}
                           (trades st);
                       nextId := nextId st; editId := None |},
                    Some (TradeUpdated i))).
  { unfold addTrade. rewrite Hrr, Hval, Hrev. cbn [negb editId trades nextId].
    rewrite Ef, Hold. reflexivity. }
  rewrite Hadd. cbn [fst snd trades nextId editId].
  split; [reflexivity|].
  split; [eapply setAt_map; [exact Hold | cbn [id]; symmetry; exact Hid]|].
  split; [eapply setAt_map; [exact Hold | reflexivity]|].
  split; [reflexivity|]. split; [reflexivity|].
  unfold addTrade. rewrite Hrr, Hval, Hrev. reflexivity.
Qed.

Lemma edit_then_submit_updates_in_place_witness :
  loadTradeForEdit twoTradeJournal (Id 7)
  = ({| trades := trades twoTradeJournal; nextId := 8; editId := Some (Id 7) |},
     None)
  /\ snd (addTrade Rev3 (fst (loadTradeForEdit twoTradeJournal (Id 7)))
            validForm (lit "2024-05-05"))
     = Some (TradeUpdated (Id 7))
  /\ map id (trades (fst (addTrade Rev3
                            (fst (loadTradeForEdit twoTradeJournal (Id 7)))
                            validForm (lit "2024-05-05"))))
     = map id (trades twoTradeJournal)
  /\ map date (trades (fst (addTrade Rev3
                              (fst (loadTradeForEdit twoTradeJournal (Id 7)))
                              validForm (lit "2024-05-05"))))
     = map date (trades twoTradeJournal)
  /\ nextId (fst (addTrade Rev3 (fst (loadTradeForEdit twoTradeJournal (Id 7)))
                    validForm (lit "2024-05-05")))
     = 8
  /\ editId (fst (addTrade Rev3 (fst (loadTradeForEdit twoTradeJournal (Id 7)))
                    validForm (lit "2024-05-05")))
     = None
  /\ snd (addTrade Rev3
            (fst (addTrade Rev3 (fst (loadTradeForEdit twoTradeJournal (Id 7)))
                    validForm (lit "2024-05-05")))
            validForm (lit "2024-05-05"))
     = Some (TradeAdded 8).
Proof.
  apply (edit_then_submit_updates_in_place Rev3 twoTradeJournal (Id 7)
           validForm (lit "2024-05-05")).
  - reflexivity.
  - exists spacedTrade. split; [right; left; reflexivity | reflexivity].
  - vm_compute. reflexivity.
  - vm_compute. reflexivity.
Defined.
